(** * Gemini Text-to-Speech: the handlers of [App.tsx]

    A shallow embedding of the three asynchronous handlers of the React
    component [App] ([handlePreviewVoice], [handleAnalyzeScript],
    [handleGenerateSpeech]), of the buttons that fire them, and of the
    browser resources they touch (object URLs, audio elements), followed
    by the properties of the specification that concern them.

    Layout: data first ([JsString], [JsNumber], [Wav], [GenAI]), then the
    component state and its handlers, then the event loop, then the
    lemmas and theorems. *)

From Stdlib Require Import ZArith NArith List Lia Bool String Ascii.
From Stdlib Require Import Floats.SpecFloat.
From coqutil Require Import Byte Word.LittleEndianList.
From stdpp Require Import gmap list.

Local Open Scope nat_scope.

(* ===================================================================== *)
(** ** JavaScript strings *)
(* ===================================================================== *)

Module JsString.

(** A JavaScript string is a sequence of UTF-16 code units. *)
Definition codeUnit := N.
Definition jsstring := list codeUnit.

(** String literals of the source, all of them ASCII. *)
Fixpoint lit (s : string) : jsstring :=
  match s with
  | EmptyString => []
  | String c s' => N_of_ascii c :: lit s'
  end.

(** The newline written [\n] in template literals. *)
Definition LF : codeUnit := 10%N.

(** ECMAScript [WhiteSpace] and [LineTerminator] code points, the ones
    [String.prototype.trim] strips: TAB, LF, VT, FF, CR, SP, NBSP,
    U+1680, U+2000..U+200A, U+2028, U+2029, U+202F, U+205F, U+3000 and
    U+FEFF.  All are in the basic plane, so one code unit each. *)
Definition isWhiteSpace (c : codeUnit) : bool :=
  ((9 <=? c) && (c <=? 13) || (c =? 32) || (c =? 160) || (c =? 5760)
   || (8192 <=? c) && (c <=? 8202) || (c =? 8232) || (c =? 8233)
   || (c =? 8239) || (c =? 8287) || (c =? 12288) || (c =? 65279))%N.

Fixpoint trimStart (s : jsstring) : jsstring :=
  match s with
  | [] => []
  | c :: s' => if isWhiteSpace c then trimStart s' else s
  end.

Definition trimEnd (s : jsstring) : jsstring := rev (trimStart (rev s)).

(** [s.trim()] *)
Definition trim (s : jsstring) : jsstring := trimEnd (trimStart s).

(** [ToBoolean] on a string: only the empty string is falsy. *)
Definition truthy (s : jsstring) : bool :=
  match s with [] => false | _ :: _ => true end.

(** [ToBoolean] on [string | null | undefined]. *)
Definition truthyOpt (o : option jsstring) : bool :=
  match o with Some s => truthy s | None => false end.

End JsString.
Export JsString.

Arguments lit s%_string.

(* ===================================================================== *)
(** ** JavaScript numbers *)
(* ===================================================================== *)

Module JsNumber.

(** A JavaScript number is an IEEE 754 binary64 value. *)
Definition number := spec_float.

(** The literals [1.0] and [0.0] of the source as binary64 values. *)
Definition one : number := S754_finite false 4503599627370496 (-52).
Definition zero : number := S754_zero false.

(** [a === b] on numbers: IEEE equality ([NaN] differs from everything,
    the two zeros are equal). *)
Definition strictEq (a b : number) : bool := SFeqb a b.

(** [a !== b] *)
Definition strictNeq (a b : number) : bool := negb (strictEq a b).

End JsNumber.
Export JsNumber.

(* ===================================================================== *)
(** ** The audio container ([pcmToWavBlob] of [./utils/audio]) *)
(* ===================================================================== *)

Module Wav.

Local Open Scope Z_scope.

(** The second argument of [pcmToWavBlob], as the call sites build it. *)
Record Format := {
  sampleRate : Z;
  numChannels : Z;
  bitsPerSample : Z
}.

(** [DataView.setUint32(_, v, true)] and [DataView.setUint16(_, v, true)]:
    the value modulo the field width, least significant byte first. *)
Definition u32le (v : Z) : list byte := le_split 4 v.
Definition u16le (v : Z) : list byte := le_split 2 v.

(** A four-character ASCII chunk tag. *)
Definition tag (s : string) : list byte := list_byte_of_string s.

Definition byteRate (f : Format) : Z :=
  sampleRate f * numChannels f * bitsPerSample f / 8.

Definition blockAlign (f : Format) : Z :=
  numChannels f * bitsPerSample f / 8.

(** The 44-byte RIFF/WAVE header for [dataSize] bytes of linear PCM. *)
Definition wavHeader (dataSize : Z) (f : Format) : list byte :=
  tag "RIFF" ++ u32le (dataSize + 36) ++ tag "WAVE"
  ++ tag "fmt " ++ u32le 16 ++ u16le 1 ++ u16le (numChannels f)
  ++ u32le (sampleRate f) ++ u32le (byteRate f)
  ++ u16le (blockAlign f) ++ u16le (bitsPerSample f)
  ++ tag "data" ++ u32le dataSize.

(** Modelled from the spec: [pcmToWavBlob] lives in [./utils/audio],
    which is not among the sources; this is the spec's
    [encodeAsContainer]: the samples, unchanged, behind a header of the
    standard uncompressed container whose size fields are
    [samples.length + 36] and [samples.length], whose [byteRate] is
    [sampleRate * channelCount * bitsPerSample/8] and whose [blockAlign]
    is [channelCount * bitsPerSample/8].  The blob is its bytes. *)
Definition pcmToWavBlob (pcmData : list byte) (f : Format) : list byte :=
  wavHeader (Z.of_nat (length pcmData)) f ++ pcmData.

(** What a consumer reads back from the header: an unsigned
    little-endian field of [n] bytes at offset [off]. *)
Definition field (off n : nat) (bytes : list byte) : Z :=
  le_combine (firstn n (skipn off bytes)).

Definition riffSizeField := field 4 4.
Definition byteRateField := field 28 4.
Definition blockAlignField := field 32 2.
Definition dataSizeField := field 40 4.

End Wav.

(* ===================================================================== *)
(** ** The remote model ([@google/genai]), as the handlers see it *)
(* ===================================================================== *)

Module GenAI.

Inductive Modality := AUDIO | TEXT | IMAGE.

(** [speechConfig]: [voiceConfig.prebuiltVoiceConfig.voiceName] and the
    two optional members [rate?] and [pitch?]; an absent member is
    [None]. *)
Record SpeechConfig := {
  voiceName : jsstring;
  rate : option number;
  pitch : option number
}.

Record GenerateContentConfig := {
  responseModalities : list Modality;
  speechConfig : SpeechConfig
}.

(** The argument of [ai.models.generateContent].  [contents] is the one
    text the source sends, whether written [prompt] or
    [[{ parts: [{ text }] }]]. *)
Record GenerateContentParameters := {
  model : jsstring;
  contents : jsstring;
  config : option GenerateContentConfig
}.

Record InlineData := { data : option jsstring }.
Record Part := { inlineData : option InlineData }.
Record Content := { parts : option (list Part) }.
Record Candidate := { content : option Content }.

(** The response: its candidates, and its [text] accessor, which is
    [undefined] when the response carries no text. *)
Record GenerateContentResponse := {
  candidates : option (list Candidate);
  text : option jsstring
}.

End GenAI.

(** A thrown value, read through [err.message]. *)
Record JsError := { message : jsstring }.

(** How an awaited [generateContent] promise settles. *)
Inductive Settled :=
| Fulfilled (response : GenAI.GenerateContentResponse)
| Rejected (err : JsError).

(** [decode] is imported from [./utils/audio], which is not among the
    sources: the handlers are parametric in it.  It returns the bytes of
    a base64 payload, or throws. *)
Class AudioUtils := {
  decode : jsstring -> JsError + list byte
}.

(* ===================================================================== *)
(** ** Component state ([useState]) and browser resources *)
(* ===================================================================== *)

(** An object URL ([blob:...]) is identified by its serial number. *)
Definition objectUrl := nat.

Record AppState := {
  narratorScript : jsstring;
  isAnalyzing : bool;
  text : jsstring;
  styleInstructions : jsstring;
  selectedVoice : jsstring;
  speed : number;
  pitch : number;
  isLoading : bool;
  audioUrl : option objectUrl;
  error : option jsstring;
  isVoiceListOpen : bool;
  previewLoadingVoiceId : option jsstring
}.

Definition setNarratorScript (v : jsstring) (s : AppState) : AppState :=
  {| narratorScript := v; isAnalyzing := isAnalyzing s; text := text s;
     styleInstructions := styleInstructions s;
     selectedVoice := selectedVoice s; speed := speed s; pitch := pitch s;
     isLoading := isLoading s; audioUrl := audioUrl s; error := error s;
     isVoiceListOpen := isVoiceListOpen s;
     previewLoadingVoiceId := previewLoadingVoiceId s |}.

Definition setIsAnalyzing (v : bool) (s : AppState) : AppState :=
  {| narratorScript := narratorScript s; isAnalyzing := v; text := text s;
     styleInstructions := styleInstructions s;
     selectedVoice := selectedVoice s; speed := speed s; pitch := pitch s;
     isLoading := isLoading s; audioUrl := audioUrl s; error := error s;
     isVoiceListOpen := isVoiceListOpen s;
     previewLoadingVoiceId := previewLoadingVoiceId s |}.

Definition setText (v : jsstring) (s : AppState) : AppState :=
  {| narratorScript := narratorScript s; isAnalyzing := isAnalyzing s;
     text := v; styleInstructions := styleInstructions s;
     selectedVoice := selectedVoice s; speed := speed s; pitch := pitch s;
     isLoading := isLoading s; audioUrl := audioUrl s; error := error s;
     isVoiceListOpen := isVoiceListOpen s;
     previewLoadingVoiceId := previewLoadingVoiceId s |}.

Definition setStyleInstructions (v : jsstring) (s : AppState) : AppState :=
  {| narratorScript := narratorScript s; isAnalyzing := isAnalyzing s;
     text := text s; styleInstructions := v;
     selectedVoice := selectedVoice s; speed := speed s; pitch := pitch s;
     isLoading := isLoading s; audioUrl := audioUrl s; error := error s;
     isVoiceListOpen := isVoiceListOpen s;
     previewLoadingVoiceId := previewLoadingVoiceId s |}.

Definition setSelectedVoice (v : jsstring) (s : AppState) : AppState :=
  {| narratorScript := narratorScript s; isAnalyzing := isAnalyzing s;
     text := text s; styleInstructions := styleInstructions s;
     selectedVoice := v; speed := speed s; pitch := pitch s;
     isLoading := isLoading s; audioUrl := audioUrl s; error := error s;
     isVoiceListOpen := isVoiceListOpen s;
     previewLoadingVoiceId := previewLoadingVoiceId s |}.

Definition setSpeed (v : number) (s : AppState) : AppState :=
  {| narratorScript := narratorScript s; isAnalyzing := isAnalyzing s;
     text := text s; styleInstructions := styleInstructions s;
     selectedVoice := selectedVoice s; speed := v; pitch := pitch s;
     isLoading := isLoading s; audioUrl := audioUrl s; error := error s;
     isVoiceListOpen := isVoiceListOpen s;
     previewLoadingVoiceId := previewLoadingVoiceId s |}.

Definition setPitch (v : number) (s : AppState) : AppState :=
  {| narratorScript := narratorScript s; isAnalyzing := isAnalyzing s;
     text := text s; styleInstructions := styleInstructions s;
     selectedVoice := selectedVoice s; speed := speed s; pitch := v;
     isLoading := isLoading s; audioUrl := audioUrl s; error := error s;
     isVoiceListOpen := isVoiceListOpen s;
     previewLoadingVoiceId := previewLoadingVoiceId s |}.

Definition setIsLoading (v : bool) (s : AppState) : AppState :=
  {| narratorScript := narratorScript s; isAnalyzing := isAnalyzing s;
     text := text s; styleInstructions := styleInstructions s;
     selectedVoice := selectedVoice s; speed := speed s; pitch := pitch s;
     isLoading := v; audioUrl := audioUrl s; error := error s;
     isVoiceListOpen := isVoiceListOpen s;
     previewLoadingVoiceId := previewLoadingVoiceId s |}.

Definition setAudioUrl (v : option objectUrl) (s : AppState) : AppState :=
  {| narratorScript := narratorScript s; isAnalyzing := isAnalyzing s;
     text := text s; styleInstructions := styleInstructions s;
     selectedVoice := selectedVoice s; speed := speed s; pitch := pitch s;
     isLoading := isLoading s; audioUrl := v; error := error s;
     isVoiceListOpen := isVoiceListOpen s;
     previewLoadingVoiceId := previewLoadingVoiceId s |}.

Definition setError (v : option jsstring) (s : AppState) : AppState :=
  {| narratorScript := narratorScript s; isAnalyzing := isAnalyzing s;
     text := text s; styleInstructions := styleInstructions s;
     selectedVoice := selectedVoice s; speed := speed s; pitch := pitch s;
     isLoading := isLoading s; audioUrl := audioUrl s; error := v;
     isVoiceListOpen := isVoiceListOpen s;
     previewLoadingVoiceId := previewLoadingVoiceId s |}.

Definition setIsVoiceListOpen (v : bool) (s : AppState) : AppState :=
  {| narratorScript := narratorScript s; isAnalyzing := isAnalyzing s;
     text := text s; styleInstructions := styleInstructions s;
     selectedVoice := selectedVoice s; speed := speed s; pitch := pitch s;
     isLoading := isLoading s; audioUrl := audioUrl s; error := error s;
     isVoiceListOpen := v;
     previewLoadingVoiceId := previewLoadingVoiceId s |}.

Definition setPreviewLoadingVoiceId (v : option jsstring) (s : AppState)
  : AppState :=
  {| narratorScript := narratorScript s; isAnalyzing := isAnalyzing s;
     text := text s; styleInstructions := styleInstructions s;
     selectedVoice := selectedVoice s; speed := speed s; pitch := pitch s;
     isLoading := isLoading s; audioUrl := audioUrl s; error := error s;
     isVoiceListOpen := isVoiceListOpen s;
     previewLoadingVoiceId := v |}.

(** The browser side: the live object URLs with the blob each one keeps
    alive, the serial number of the next URL, and the [Audio] elements
    that were started (by their [src]), each holding the [onended]
    handler the preview installs. *)
Record Browser := {
  objectUrls : gmap objectUrl (list byte);
  nextUrl : objectUrl;
  audios : list objectUrl
}.

(** [URL.createObjectURL(blob)] *)
Definition createObjectURL (blob : list byte) (b : Browser)
  : objectUrl * Browser :=
  (nextUrl b,
   {| objectUrls := <[nextUrl b := blob]> (objectUrls b);
      nextUrl := S (nextUrl b);
      audios := audios b |}).

(** [URL.revokeObjectURL(url)] *)
Definition revokeObjectURL (url : objectUrl) (b : Browser) : Browser :=
  {| objectUrls := delete url (objectUrls b);
     nextUrl := nextUrl b;
     audios := audios b |}.

(** [const audio = new Audio(url); audio.play();
     audio.onended = () => URL.revokeObjectURL(url)] *)
Definition playAudio (url : objectUrl) (b : Browser) : Browser :=
  {| objectUrls := objectUrls b;
     nextUrl := nextUrl b;
     audios := url :: audios b |}.

(* ===================================================================== *)
(** ** Statements that may throw, over the component and the browser *)
(* ===================================================================== *)

Definition St := (AppState * Browser)%type.

(** A statement runs on the state and either completes with a value or
    throws; what it wrote before throwing stays written. *)
Definition Exec (A : Type) := St -> (JsError + A) * St.

Definition ret {A} (a : A) : Exec A := fun s => (inr a, s).

Definition throw {A} (e : JsError) : Exec A := fun s => (inl e, s).

Definition bind {A B} (c : Exec A) (k : A -> Exec B) : Exec B :=
  fun s =>
    match c s with
    | (inr a, s') => k a s'
    | (inl e, s') => (inl e, s')
    end.

Declare Scope js_scope.
Delimit Scope js_scope with js.
Notation "x <- c ;; k" := (bind c (fun x => k))
  (at level 100, c at next level, k at level 200, right associativity)
  : js_scope.

(** A [useState] setter. *)
Definition setState (f : AppState -> AppState) : Exec unit :=
  fun s => (inr tt, (f (fst s), snd s)).

(** A browser call that returns a value. *)
Definition callBrowser {A} (f : Browser -> A * Browser) : Exec A :=
  fun s => let (a, b) := f (snd s) in (inr a, (fst s, b)).

(** A browser call for its effect only. *)
Definition onBrowser (f : Browser -> Browser) : Exec unit :=
  fun s => (inr tt, (fst s, f (snd s))).

(** A helper that returns or throws. *)
Definition orThrow {A} (r : JsError + A) : Exec A :=
  fun s => (r, s).

(** [await promise], once the promise has settled. *)
Definition await (outcome : Settled) : Exec GenAI.GenerateContentResponse :=
  match outcome with
  | Fulfilled response => ret response
  | Rejected err => throw err
  end.

(** [try { body } catch (err) { handler } finally { finalizer }] *)
Definition tryCatchFinally (body : Exec unit) (handler : JsError -> Exec unit)
    (finalizer : Exec unit) : Exec unit :=
  fun s =>
    let (r, s1) := match body s with
                   | (inl err, s') => handler err s'
                   | completed => completed
                   end in
    match finalizer s1 with
    | (inl err, s2) => (inl err, s2)
    | (inr _, s2) => (r, s2)
    end.

(* ===================================================================== *)
(** ** Constants of the component *)
(* ===================================================================== *)

Record Voice := { id : jsstring; name : jsstring }.

Definition voice (i n : string) : Voice := {| id := lit i; name := lit n |}.

(** The catalogue as the source lists it.  The list is written in
    alphabetical order of [name], so the [.sort] applied to it keeps it
    as it is. *)
Definition VOICES : list Voice :=
  [ voice "achernar" "Achernar"; voice "achird" "Achird";
    voice "algenib" "Algenib"; voice "algieba" "Algieba";
    voice "alnilam" "Alnilam"; voice "aoede" "Aoede";
    voice "autonoe" "Autonoe"; voice "callirrhoe" "Callirrhoe";
    voice "charon" "Charon"; voice "despina" "Despina";
    voice "enceladus" "Enceladus"; voice "erinome" "Erinome";
    voice "fenrir" "Fenrir"; voice "gacrux" "Gacrux";
    voice "iapetus" "Iapetus"; voice "kore" "Kore";
    voice "laomedeia" "Laomedeia"; voice "leda" "Leda";
    voice "orus" "Orus"; voice "puck" "Puck";
    voice "pulcherrima" "Pulcherrima"; voice "rasalgethi" "Rasalgethi";
    voice "sadachbia" "Sadachbia"; voice "sadaltager" "Sadaltager";
    voice "schedar" "Schedar"; voice "sulafat" "Sulafat";
    voice "umbriel" "Umbriel"; voice "vindemiatrix" "Vindemiatrix";
    voice "zephyr" "Zephyr"; voice "zubenelgenubi" "Zubenelgenubi" ].

Definition PREVIEW_TEXT : jsstring :=
  lit "Hello, this is a preview of my voice.".

(** The format both call sites of [pcmToWavBlob] pass. *)
Definition pcmFormat : Wav.Format :=
  {| Wav.sampleRate := 24000; Wav.numChannels := 1; Wav.bitsPerSample := 16 |}.

(** The initial values given to [useState]. *)
Definition initialState : AppState :=
  {| narratorScript := [];
     isAnalyzing := false;
     text := lit "Hello! I am a friendly AI assistant powered by Gemini. You can type any text here and I will read it aloud for you.";
     styleInstructions := lit "Read aloud in a warm, welcoming tone:";
     selectedVoice := lit "achernar";
     speed := one;
     pitch := zero;
     isLoading := false;
     audioUrl := None;
     error := None;
     isVoiceListOpen := false;
     previewLoadingVoiceId := None |}.

(** The template of [handleAnalyzeScript], around [narratorScript]. *)
Definition analysisPrompt (script : jsstring) : jsstring :=
  lit "Analyze the following narrator script and generate a concise 'Style Instruction' for a text-to-speech model. The instruction should capture the script's primary tone, emotion, and intended delivery style. The output should be a single imperative sentence, starting with a verb, similar to 'Read aloud in a warm, welcoming tone:' or 'Speak with a sense of urgency and excitement:'. Do not add any other explanatory text, quotes, or preamble."
  ++ [LF; LF] ++ lit "Here is the script:" ++ [LF] ++ lit "---" ++ [LF]
  ++ script ++ [LF] ++ lit "---" ++ [LF] ++ lit "Style Instruction:".

(** What [response.text.trim()] throws when [response.text] is
    [undefined]; the wording of the [TypeError] is the engine's. *)
Definition undefinedTrimError : JsError :=
  {| message := lit "Cannot read properties of undefined (reading 'trim')" |}.

(** [response.candidates?.[0]?.content?.parts?.[0]?.inlineData?.data] *)
Definition inlineAudio (response : GenAI.GenerateContentResponse)
  : option jsstring :=
  cs ← GenAI.candidates response;
  c ← head cs;
  ct ← GenAI.content c;
  ps ← GenAI.parts ct;
  p ← head ps;
  d ← GenAI.inlineData p;
  GenAI.data d.

(** [if (!base64Audio) throw new Error(msg)], after which [base64Audio]
    is a non-empty string. *)
Definition requireAudio (base64Audio : option jsstring) (msg : string)
  : Exec jsstring :=
  if truthyOpt base64Audio
  then ret (default [] base64Audio)
  else throw {| message := lit msg |}.

(* ===================================================================== *)
(** ** The handlers *)
(* ===================================================================== *)

(** Each [async] handler is split at its single [await]: the function
    named as in the source is the part that runs in the event that fires
    the handler, up to the call of [ai.models.generateContent]; it
    returns the state it leaves and the request it awaits, or [None]
    when it returned before calling.  The [_resume] function is the
    rest, run when the promise settles, on the state of that moment.
    No handler reads a captured variable after its [await].
    [console.error] is left out. *)

Section Handlers.

Context {audio : AudioUtils}.

Local Open Scope js_scope.

(** [handlePreviewVoice], lines 75-89. *)
Definition handlePreviewVoice (voiceId : jsstring) (s : AppState)
  : AppState * option GenAI.GenerateContentParameters :=
  if truthyOpt (previewLoadingVoiceId s) then (s, None)
  else
    let s1 := setPreviewLoadingVoiceId (Some voiceId) s in
    let s2 := setError None s1 in
    (s2,
     Some {| GenAI.model := lit "gemini-2.5-flash-preview-tts";
             GenAI.contents := PREVIEW_TEXT;
             GenAI.config :=
               Some {| GenAI.responseModalities := [GenAI.AUDIO];
                       GenAI.speechConfig :=
                         {| GenAI.voiceName := voiceId;
                            GenAI.rate := None;
                            GenAI.pitch := None |} |} |}).

(** [handlePreviewVoice], lines 89-105. *)
Definition handlePreviewVoice_resume (outcome : Settled) : Exec unit :=
  tryCatchFinally
    (response <- await outcome ;;
     let base64Audio := inlineAudio response in
     b64 <- requireAudio base64Audio "No audio data received for preview." ;;
     pcmData <- orThrow (decode b64) ;;
     let wavBlob := Wav.pcmToWavBlob pcmData pcmFormat in
     url <- callBrowser (createObjectURL wavBlob) ;;
     onBrowser (playAudio url))
    (fun err =>
       setState (setError (Some (lit "Preview failed: " ++ message err))))
    (setState (setPreviewLoadingVoiceId None)).

(** [handleAnalyzeScript], lines 108-127. *)
Definition handleAnalyzeScript (s : AppState)
  : AppState * option GenAI.GenerateContentParameters :=
  if negb (truthy (trim (narratorScript s)))
  then (setError (Some (lit "Please paste a script to analyze.")) s, None)
  else
    let s1 := setError None s in
    let s2 := setIsAnalyzing true s1 in
    let prompt := analysisPrompt (narratorScript s) in
    (s2,
     Some {| GenAI.model := lit "gemini-2.5-flash";
             GenAI.contents := prompt;
             GenAI.config := None |}).

(** [handleAnalyzeScript], lines 127-137. *)
Definition handleAnalyzeScript_resume (outcome : Settled) : Exec unit :=
  tryCatchFinally
    (response <- await outcome ;;
     newStyle <- match GenAI.text response with
                 | Some t => ret (trim t)
                 | None => throw undefinedTrimError
                 end ;;
     setState (setStyleInstructions newStyle))
    (fun err =>
       setState (setError (Some (lit "Analysis failed: " ++ message err))))
    (setState (setIsAnalyzing false)).

(** [handleGenerateSpeech], lines 141-182. *)
Definition handleGenerateSpeech (s : AppState)
  : AppState * option GenAI.GenerateContentParameters :=
  let trimmedText := trim (text s) in
  if negb (truthy trimmedText)
  then
    (setError (Some (lit "Please enter some text to generate speech.")) s,
     None)
  else
    let s1 := setError None s in
    let s2 := setAudioUrl None s1 in
    let s3 := setIsLoading true s2 in
    let fullPrompt :=
      if truthy (trim (styleInstructions s))
      then trim (styleInstructions s) ++ [LF; LF] ++ trimmedText
      else trimmedText in
    let speechConfig :=
      {| GenAI.voiceName := selectedVoice s;
         GenAI.rate :=
           if strictNeq (speed s) one then Some (speed s) else None;
         GenAI.pitch :=
           if strictNeq (pitch s) zero then Some (pitch s) else None |} in
    (s3,
     Some {| GenAI.model := lit "gemini-2.5-flash-preview-tts";
             GenAI.contents := fullPrompt;
             GenAI.config :=
               Some {| GenAI.responseModalities := [GenAI.AUDIO];
                       GenAI.speechConfig := speechConfig |} |}).

(** [handleGenerateSpeech], lines 182-205. *)
Definition handleGenerateSpeech_resume (outcome : Settled) : Exec unit :=
  tryCatchFinally
    (response <- await outcome ;;
     let base64Audio := inlineAudio response in
     b64 <- requireAudio base64Audio "No audio data received from API." ;;
     pcmData <- orThrow (decode b64) ;;
     let wavBlob := Wav.pcmToWavBlob pcmData pcmFormat in
     url <- callBrowser (createObjectURL wavBlob) ;;
     setState (setAudioUrl (Some url)))
    (fun err =>
       setState (setError (Some (lit "An error occurred: " ++ message err))))
    (setState (setIsLoading false)).

(* ===================================================================== *)
(** ** The event loop *)
(* ===================================================================== *)

Inductive Task := GenerateTask | PreviewTask | AnalyzeTask.

(** How many continuations of each handler are suspended at their
    [await]. *)
Record Pending := {
  generating : nat;
  previewing : nat;
  analyzing : nat
}.

Definition suspended (t : Task) (p : Pending) : nat :=
  match t with
  | GenerateTask => generating p
  | PreviewTask => previewing p
  | AnalyzeTask => analyzing p
  end.

Definition suspend (t : Task) (p : Pending) : Pending :=
  match t with
  | GenerateTask =>
      {| generating := S (generating p); previewing := previewing p;
         analyzing := analyzing p |}
  | PreviewTask =>
      {| generating := generating p; previewing := S (previewing p);
         analyzing := analyzing p |}
  | AnalyzeTask =>
      {| generating := generating p; previewing := previewing p;
         analyzing := S (analyzing p) |}
  end.

Definition wake (t : Task) (p : Pending) : Pending :=
  match t with
  | GenerateTask =>
      {| generating := pred (generating p); previewing := previewing p;
         analyzing := analyzing p |}
  | PreviewTask =>
      {| generating := generating p; previewing := pred (previewing p);
         analyzing := analyzing p |}
  | AnalyzeTask =>
      {| generating := generating p; previewing := previewing p;
         analyzing := pred (analyzing p) |}
  end.

(** The page: the component, the browser, every request sent to the
    remote model so far (latest first) and the suspended handlers. *)
Record System := {
  app : AppState;
  browser : Browser;
  calls : list GenAI.GenerateContentParameters;
  pending : Pending
}.

Inductive Event :=
| ChangeNarratorScript (value : jsstring)
| ClickAnalyze
| ChangeStyleInstructions (value : jsstring)
| ChangeText (value : jsstring)
| ToggleVoiceList
| MouseDownOutside
| SelectVoice (index : nat)
| ClickPreview (index : nat)
| ChangeSpeed (value : number)
| ChangePitch (value : number)
| ClickGenerate
| Settle (t : Task) (outcome : Settled)
| AudioEnded (url : objectUrl).

(** A state update that calls nothing. *)
Definition render (a : AppState) (s : System) : System :=
  {| app := a; browser := browser s; calls := calls s;
     pending := pending s |}.

(** The effect of the synchronous part of a handler: the new component
    state and, if it reached its [await], the request and the suspended
    continuation. *)
Definition dispatch (t : Task)
    (r : AppState * option GenAI.GenerateContentParameters) (s : System)
  : System :=
  match r with
  | (a, Some request) =>
      {| app := a; browser := browser s; calls := request :: calls s;
         pending := suspend t (pending s) |}
  | (a, None) => render a s
  end.

Definition resume (t : Task) : Settled -> Exec unit :=
  match t with
  | GenerateTask => handleGenerateSpeech_resume
  | PreviewTask => handlePreviewVoice_resume
  | AnalyzeTask => handleAnalyzeScript_resume
  end.

(** One turn of the event loop.  A click on a disabled button, on a
    button that is not rendered, or the settling of a promise nobody
    awaits, does nothing.
    - Analyze button: [onClick={handleAnalyzeScript} disabled={isAnalyzing}];
    - Generate button: [onClick={handleGenerateSpeech} disabled={isLoading}];
    - the voice list is rendered only when [isVoiceListOpen]; its preview
      buttons have [disabled={previewLoadingVoiceId === voice.id}]. *)
Definition step (e : Event) (s : System) : System :=
  let a := app s in
  match e with
  | ChangeNarratorScript v => render (setNarratorScript v a) s
  | ClickAnalyze =>
      if isAnalyzing a then s
      else dispatch AnalyzeTask (handleAnalyzeScript a) s
  | ChangeStyleInstructions v => render (setStyleInstructions v a) s
  | ChangeText v => render (setText v a) s
  | ToggleVoiceList => render (setIsVoiceListOpen (negb (isVoiceListOpen a)) a) s
  | MouseDownOutside => render (setIsVoiceListOpen false a) s
  | SelectVoice i =>
      match VOICES !! i with
      | Some v =>
          if isVoiceListOpen a
          then render (setIsVoiceListOpen false (setSelectedVoice (id v) a)) s
          else s
      | None => s
      end
  | ClickPreview i =>
      match VOICES !! i with
      | Some v =>
          if isVoiceListOpen a
             && negb (bool_decide (previewLoadingVoiceId a = Some (id v)))
          then dispatch PreviewTask (handlePreviewVoice (id v) a) s
          else s
      | None => s
      end
  | ChangeSpeed v => render (setSpeed v a) s
  | ChangePitch v => render (setPitch v a) s
  | ClickGenerate =>
      if isLoading a then s
      else dispatch GenerateTask (handleGenerateSpeech a) s
  | Settle t outcome =>
      match suspended t (pending s) with
      | O => s
      | S _ =>
          let st := snd (resume t outcome (a, browser s)) in
          {| app := fst st; browser := snd st; calls := calls s;
             pending := wake t (pending s) |}
      end
  | AudioEnded url =>
      if bool_decide (url ∈ audios (browser s))
      then {| app := a; browser := revokeObjectURL url (browser s);
              calls := calls s; pending := pending s |}
      else s
  end.

(** The page after a sequence of events, the earliest first. *)
Definition run (events : list Event) (s : System) : System :=
  fold_left (fun s e => step e s) events s.

End Handlers.

Definition emptyBrowser : Browser :=
  {| objectUrls := ∅; nextUrl := 0; audios := [] |}.

(** The page as first mounted. *)
Definition initialSystem : System :=
  {| app := initialState; browser := emptyBrowser; calls := [];
     pending := {| generating := 0; previewing := 0; analyzing := 0 |} |}.

(* ===================================================================== *)
(** ** A base64 decoder, to run the handlers on concrete responses *)
(* ===================================================================== *)

Module Base64.

Local Open Scope N_scope.

(** The value of a character of the base64 alphabet. *)
Definition sextet (c : codeUnit) : option N :=
  if (65 <=? c) && (c <=? 90) then Some (c - 65)
  else if (97 <=? c) && (c <=? 122) then Some (c - 71)
  else if (48 <=? c) && (c <=? 57) then Some (c + 4)
  else if c =? 43 then Some 62
  else if c =? 47 then Some 63
  else None.

(** The padding character [=]. *)
Definition pad : codeUnit := 61.

Definition octet (n : N) : byte := byte.of_Z (Z.of_N n).

(** The bytes of the 24-bit group [n]. *)
Definition octets (n : N) : list byte :=
  [octet (N.shiftr n 16); octet (N.shiftr n 8); octet n].

Definition group (a b c d : N) : N :=
  N.shiftl a 18 + N.shiftl b 12 + N.shiftl c 6 + d.

Definition decodeError : JsError := {| message := lit "DecodeError" |}.

(** Modelled from the spec: [decode] of [./utils/audio] is not among the
    sources; this is the spec's [decodeBase64ToBytes], standard base64
    decoding that fails on characters outside the alphabet and on
    invalid padding. *)
Fixpoint decodeBase64ToBytes (payload : jsstring) : JsError + list byte :=
  match payload with
  | [] => inr []
  | [a; b; c; d] =>
      match sextet a, sextet b, sextet c, sextet d with
      | Some x, Some y, Some z, Some w => inr (octets (group x y z w))
      | Some x, Some y, Some z, None =>
          if d =? pad then inr (firstn 2 (octets (group x y z 0)))
          else inl decodeError
      | Some x, Some y, None, None =>
          if (c =? pad) && (d =? pad)
          then inr (firstn 1 (octets (group x y 0 0)))
          else inl decodeError
      | _, _, _, _ => inl decodeError
      end
  | a :: b :: c :: d :: rest =>
      match sextet a, sextet b, sextet c, sextet d with
      | Some x, Some y, Some z, Some w =>
          match decodeBase64ToBytes rest with
          | inr bytes => inr (octets (group x y z w) ++ bytes)
          | inl err => inl err
          end
      | _, _, _, _ => inl decodeError
      end
  | _ => inl decodeError
  end.

Definition audioUtils : AudioUtils := {| decode := decodeBase64ToBytes |}.

End Base64.

(** A response whose first candidate carries [payload] as inline data. *)
Definition audioResponse (payload : jsstring)
  : GenAI.GenerateContentResponse :=
  {| GenAI.candidates :=
       Some [ {| GenAI.content :=
                   Some {| GenAI.parts :=
                             Some [ {| GenAI.inlineData :=
                                         Some {| GenAI.data := Some payload |}
                                    |} ] |} |} ];
     GenAI.text := None |}.

(* ===================================================================== *)
(** ** Vocabulary of the properties *)
(* ===================================================================== *)

(** The messages the handlers show for an empty input. *)
Definition emptyTextMessage : jsstring :=
  lit "Please enter some text to generate speech.".
Definition emptyScriptMessage : jsstring :=
  lit "Please paste a script to analyze.".

(** The three ways a synthesis can fail once its request was sent: the
    remote call is rejected, the response carries no audio payload, or
    the payload does not decode. *)
Inductive SynthesisFails {audio : AudioUtils} : Settled -> Prop :=
| RemoteFails err : SynthesisFails (Rejected err)
| ExtractionFails response :
    truthyOpt (inlineAudio response) = false ->
    SynthesisFails (Fulfilled response)
| DecodingFails response b64 err :
    inlineAudio response = Some b64 ->
    decode b64 = inl err ->
    SynthesisFails (Fulfilled response).

(** What the [try] block of a synthesis handler has in hand when it
    reaches [pcmToWavBlob]: the decoded samples, or the error thrown on
    the way ([msg] is the message for a missing payload). *)
Definition synthesized {audio : AudioUtils} (msg : string)
    (outcome : Settled) : JsError + list byte :=
  match outcome with
  | Rejected err => inl err
  | Fulfilled response =>
      if truthyOpt (inlineAudio response)
      then decode (default [] (inlineAudio response))
      else inl {| message := lit msg |}
  end.

(** The fields that neither a preview nor an analysis may touch. *)
Definition sameInputsAndResult (a a' : AppState) : Prop :=
  audioUrl a' = audioUrl a /\ text a' = text a
  /\ selectedVoice a' = selectedVoice a
  /\ speed a' = speed a /\ pitch a' = pitch a.

(** [a'] is [a] but for the preview busy flag and the error message. *)
Definition previewWrites (a a' : AppState) : Prop :=
  a' = setError (error a')
         (setPreviewLoadingVoiceId (previewLoadingVoiceId a') a).

(** [a'] is [a] but for the analyze busy flag, the error message and the
    style instructions. *)
Definition analyzeWrites (a a' : AppState) : Prop :=
  a' = setError (error a')
         (setIsAnalyzing (isAnalyzing a')
            (setStyleInstructions (styleInstructions a') a)).

(** What the Generate button and the continuation of generation keep
    true between them: a generation is awaited exactly when the busy flag
    is set, at most one is, and while it is no result is on display. *)
Definition generateInvariant (sys : System) : Prop :=
  generating (pending sys) = (if isLoading (app sys) then 1 else 0)
  /\ (isLoading (app sys) = true -> audioUrl (app sys) = None).

(** An object URL that is registered and that no [Audio] element of a
    preview will revoke when it ends. *)
Definition unowned (sys : System) (url : objectUrl) : Prop :=
  url < nextUrl (browser sys)
  /\ (url ∉ audios (browser sys))
  /\ is_Some (objectUrls (browser sys) !! url).

(** The [Audio] elements play URLs already handed out, and the result on
    display, if any, is an unowned URL. *)
Definition urlInvariant (sys : System) : Prop :=
  (forall url, url ∈ audios (browser sys) -> url < nextUrl (browser sys))
  /\ (forall url, audioUrl (app sys) = Some url -> unowned sys url).

(** A page on which a generation was started and a preview then failed:
    the generate call is still awaited and an error is on display. *)
Definition busyPage : System :=
  @run Base64.audioUtils
    [ ClickGenerate; ToggleVoiceList; ClickPreview 0;
      Settle PreviewTask (Rejected {| message := lit "quota" |}) ]
    initialSystem.

(* ===================================================================== *)
(** ** What the page renders from the state *)
(* ===================================================================== *)

(** [VOICES.find(v => v.id === selectedVoice)?.name || 'Select Voice'],
    line 208, as a function of the state variable it reads. *)
Definition selectedVoiceName (selectedVoice : jsstring) : jsstring :=
  match List.find (fun v => bool_decide (id v = selectedVoice)) VOICES with
  | Some v => if truthy (name v) then name v else lit "Select Voice"
  | None => lit "Select Voice"
  end.

(** The download link of the result footer, lines 392-405: rendered only
    when [audioUrl] is set, with [href={audioUrl}] and
    [download={`gemini-tts-${selectedVoice}.wav`}]. *)
Definition downloadLink (s : AppState) : option (objectUrl * jsstring) :=
  match audioUrl s with
  | Some url => Some (url, lit "gemini-tts-" ++ selectedVoice s ++ lit ".wav")
  | None => None
  end.

(** The busy flag of each handler, as the handler or its button tests
    it: [isLoading], [isAnalyzing], and the truthiness of
    [previewLoadingVoiceId]. *)
Definition busy (t : Task) (a : AppState) : bool :=
  match t with
  | GenerateTask => isLoading a
  | PreviewTask => truthyOpt (previewLoadingVoiceId a)
  | AnalyzeTask => isAnalyzing a
  end.

(** Each busy flag is set exactly while one continuation of its handler
    is suspended, and never more than one is. *)
Definition domainInvariant (sys : System) : Prop :=
  forall t, suspended t (pending sys) = (if busy t (app sys) then 1 else 0).

(** [a'] is [a] but for the error message, the displayed result and the
    generate busy flag. *)
Definition generateWrites (a a' : AppState) : Prop :=
  a' = setIsLoading (isLoading a')
         (setAudioUrl (audioUrl a') (setError (error a') a)).

(** A response that carries [style] as its text and no candidates. *)
Definition textResponse (style : jsstring) : GenAI.GenerateContentResponse :=
  {| GenAI.candidates := None; GenAI.text := Some style |}.

(* ===================================================================== *)
(** * Properties *)
(* ===================================================================== *)

(** ** Strings *)

Lemma truthy_true (s : jsstring) : truthy s = true <-> s <> [].
Proof. destruct s; simpl; split; congruence. Qed.

Lemma trimStart_blank (s : jsstring) :
  trimStart s = [] <-> forallb isWhiteSpace s = true.
Proof.
  induction s as [|c s IH]; simpl.
  - tauto.
  - destruct (isWhiteSpace c); simpl.
    + exact IH.
    + split; discriminate.
Qed.

(** What [trimStart] leaves starts with a character that is not white
    space. *)
Lemma trimStart_head (s : jsstring) c r :
  trimStart s = c :: r -> isWhiteSpace c = false.
Proof.
  induction s as [|d s IH]; simpl; [discriminate|].
  destruct (isWhiteSpace d) eqn:Hd; [exact IH|].
  intros [= <- _]. exact Hd.
Qed.

(** [s.trim()] is empty exactly when [s] is empty or white space only. *)
Lemma trim_blank (s : jsstring) :
  trim s = [] <-> forallb isWhiteSpace s = true.
Proof.
  unfold trim, trimEnd. split.
  - intros H. apply (f_equal (@rev _)) in H. rewrite rev_involutive in H.
    simpl in H. apply trimStart_blank in H.
    rewrite forallb_forall in H.
    destruct (trimStart s) as [|c r] eqn:Hs.
    + now apply trimStart_blank.
    + apply trimStart_head in Hs as Hc.
      rewrite (H c) in Hc; [discriminate|].
      apply in_rev. rewrite rev_involutive. now left.
  - intros H. apply trimStart_blank in H. now rewrite H.
Qed.

(** ** Numbers *)

(** IEEE equality with a positive finite value is identity. *)
Lemma SFeqb_finite_pos (x : spec_float) (m : positive) (e : Z) :
  SFeqb x (S754_finite false m e) = true <-> x = S754_finite false m e.
Proof.
  unfold SFeqb. split.
  - destruct x as [s|s| |s m' e']; cbn [SFcompare];
      try (destruct s; discriminate); try discriminate.
    destruct s; [discriminate|].
    destruct (Z.compare_spec e' e) as [->| |]; try discriminate.
    destruct (Pos.compare_cont Eq m' m) eqn:Hm; try discriminate.
    apply Pos.compare_eq in Hm. now subst.
  - intros ->. cbn [SFcompare]. rewrite Z.compare_refl.
    change (Pos.compare_cont Eq m m) with (Pos.compare m m).
    now rewrite Pos.compare_refl.
Qed.

(** [x === 1.0] holds for the one binary64 value 1.0 only. *)
Lemma strictEq_one (x : number) : strictEq x one = true <-> x = one.
Proof. apply SFeqb_finite_pos. Qed.

(** [x === 0.0] holds for the two zeros only. *)
Lemma strictEq_zero (x : number) :
  strictEq x zero = true <-> exists sign, x = S754_zero sign.
Proof.
  unfold strictEq, SFeqb, zero. split.
  - destruct x as [s|s| |s m e]; cbn [SFcompare];
      try (destruct s; discriminate); try discriminate; eauto.
  - intros [sign ->]. reflexivity.
Qed.

(** ** The audio container *)

Lemma length_wavHeader n f : length (Wav.wavHeader n f) = 44.
Proof. reflexivity. Qed.

Lemma length_pcmToWavBlob samples f :
  length (Wav.pcmToWavBlob samples f) = 44 + length samples.
Proof.
  unfold Wav.pcmToWavBlob. now rewrite length_app, length_wavHeader.
Qed.

(** The samples follow the header unchanged. *)
Lemma pcmToWavBlob_payload samples f :
  skipn 44 (Wav.pcmToWavBlob samples f) = samples.
Proof. reflexivity. Qed.

(** A field written with [n] bytes reads back modulo [2^(8n)]. *)
Lemma field_written (before after : list byte) (n : nat) (v : Z) :
  Wav.field (length before) n (before ++ le_split n v ++ after)
  = (v mod 2 ^ (Z.of_nat n * 8))%Z.
Proof.
  unfold Wav.field.
  rewrite skipn_app, skipn_all, Nat.sub_diag.
  change ([] ++ skipn 0 (le_split n v ++ after)) with (le_split n v ++ after).
  rewrite firstn_app, length_le_split, Nat.sub_diag, firstn_O, app_nil_r.
  rewrite firstn_all2 by (rewrite length_le_split; lia).
  apply le_combine_split.
Qed.

(** C1.  For every samples buffer of [N] bytes and every format whose
    values fit the fixed-width fields of the header, [pcmToWavBlob] (the
    spec's [encodeAsContainer]) returns [44 + N] bytes whose data-size
    field reads [N], whose RIFF-size field reads [N + 36], whose byteRate
    field reads [sampleRate * channelCount * bitsPerSample / 8] and whose
    blockAlign field reads [channelCount * bitsPerSample / 8]. *)
Theorem pcmToWavBlob_header_exact (samples : list byte) (f : Wav.Format) :
  let n := Z.of_nat (length samples) in
  let out := Wav.pcmToWavBlob samples f in
  (n + 36 < 2 ^ 32)%Z ->
  (0 <= Wav.sampleRate f * Wav.numChannels f * Wav.bitsPerSample f / 8
     < 2 ^ 32)%Z ->
  (0 <= Wav.numChannels f * Wav.bitsPerSample f / 8 < 2 ^ 16)%Z ->
  length out = 44 + length samples
  /\ Wav.dataSizeField out = n
  /\ Wav.riffSizeField out = (n + 36)%Z
  /\ Wav.byteRateField out
     = (Wav.sampleRate f * Wav.numChannels f * Wav.bitsPerSample f / 8)%Z
  /\ Wav.blockAlignField out
     = (Wav.numChannels f * Wav.bitsPerSample f / 8)%Z.
Proof.
  intros n out Hn Hrate Halign.
  assert (0 <= n)%Z by apply Nat2Z.is_nonneg.
  split; [apply length_pcmToWavBlob|].
  unfold out, Wav.pcmToWavBlob, Wav.wavHeader.
  fold n. fold (Wav.byteRate f) (Wav.blockAlign f) in *.
  unfold Wav.dataSizeField, Wav.riffSizeField, Wav.byteRateField,
    Wav.blockAlignField, Wav.u32le, Wav.u16le.
  repeat split.
  - rewrite !app_assoc, <- app_assoc.
    match goal with
    | |- Wav.field _ _ (?pre ++ _ ++ _) = _ =>
        change 40 with (length pre)
    end.
    rewrite field_written. apply Z.mod_small. lia.
  - rewrite <- !app_assoc.
    match goal with
    | |- Wav.field _ _ (?pre ++ _ ++ _) = _ =>
        change 4 with (length pre) at 1
    end.
    rewrite field_written. apply Z.mod_small. lia.
  - rewrite <- !app_assoc.
    do 7 rewrite (app_assoc _ _ (le_split 4 (Wav.byteRate f) ++ _)).
    match goal with
    | |- Wav.field _ _ (?pre ++ _ ++ _) = _ =>
        change 28 with (length pre)
    end.
    rewrite field_written. apply Z.mod_small. exact Hrate.
  - rewrite <- !app_assoc.
    do 8 rewrite (app_assoc _ _ (le_split 2 (Wav.blockAlign f) ++ _)).
    match goal with
    | |- Wav.field _ _ (?pre ++ _ ++ _) = _ =>
        change 32 with (length pre)
    end.
    rewrite field_written. apply Z.mod_small. exact Halign.
Qed.

Lemma pcmToWavBlob_header_exact_witness :
  let out := Wav.pcmToWavBlob [Byte.x01; Byte.x02; Byte.x03; Byte.x04]
               pcmFormat in
  length out = 48
  /\ Wav.dataSizeField out = 4%Z
  /\ Wav.riffSizeField out = 40%Z
  /\ Wav.byteRateField out = 48000%Z
  /\ Wav.blockAlignField out = 2%Z.
Proof.
  apply (pcmToWavBlob_header_exact
           [Byte.x01; Byte.x02; Byte.x03; Byte.x04] pcmFormat);
    vm_compute; repeat split; congruence.
Defined.

(** ** Validation *)

(** C5.  When the text is empty after trimming, [handleGenerateSpeech]
    shows the validation message, sends no request, and leaves the busy
    flag and the displayed result as they were; on the page, the click
    adds no call. *)
Theorem generate_blank_text_rejected {audio : AudioUtils} (s : AppState) :
  trim (text s) = [] ->
  handleGenerateSpeech s = (setError (Some emptyTextMessage) s, None)
  /\ error (fst (handleGenerateSpeech s)) = Some emptyTextMessage
  /\ isLoading (fst (handleGenerateSpeech s)) = isLoading s
  /\ audioUrl (fst (handleGenerateSpeech s)) = audioUrl s
  /\ forall sys, app sys = s ->
       calls (step ClickGenerate sys) = calls sys
       /\ pending (step ClickGenerate sys) = pending sys.
Proof.
  intros Hblank.
  assert (Hrun : handleGenerateSpeech s
                 = (setError (Some emptyTextMessage) s, None)).
  { unfold handleGenerateSpeech. now rewrite Hblank. }
  rewrite Hrun. do 4 (split; [reflexivity|]).
  intros sys <-. unfold step.
  destruct (isLoading (app sys)); [now split|].
  now rewrite Hrun.
Qed.

Lemma generate_blank_text_rejected_witness :
  let s := setText (lit "  ") initialState in
  handleGenerateSpeech s = (setError (Some emptyTextMessage) s, None)
  /\ error (fst (handleGenerateSpeech s)) = Some emptyTextMessage
  /\ isLoading (fst (handleGenerateSpeech s)) = isLoading s
  /\ audioUrl (fst (handleGenerateSpeech s)) = audioUrl s
  /\ forall sys, app sys = s ->
       calls (@step Base64.audioUtils ClickGenerate sys) = calls sys
       /\ pending (@step Base64.audioUtils ClickGenerate sys) = pending sys.
Proof.
  apply (@generate_blank_text_rejected Base64.audioUtils
           (setText (lit "  ") initialState)).
  reflexivity.
Defined.

(** C8.  When the script is empty after trimming, [handleAnalyzeScript]
    shows the validation message in the same turn, sends no request, and
    leaves the analyze busy flag and the style instructions as they
    were; on the page, the click adds no call. *)
Theorem analyze_blank_script_rejected {audio : AudioUtils} (s : AppState) :
  trim (narratorScript s) = [] ->
  handleAnalyzeScript s = (setError (Some emptyScriptMessage) s, None)
  /\ error (fst (handleAnalyzeScript s)) = Some emptyScriptMessage
  /\ isAnalyzing (fst (handleAnalyzeScript s)) = isAnalyzing s
  /\ styleInstructions (fst (handleAnalyzeScript s)) = styleInstructions s
  /\ forall sys, app sys = s ->
       calls (step ClickAnalyze sys) = calls sys
       /\ pending (step ClickAnalyze sys) = pending sys.
Proof.
  intros Hblank.
  assert (Hrun : handleAnalyzeScript s
                 = (setError (Some emptyScriptMessage) s, None)).
  { unfold handleAnalyzeScript. now rewrite Hblank. }
  rewrite Hrun. do 4 (split; [reflexivity|]).
  intros sys <-. unfold step.
  destruct (isAnalyzing (app sys)); [now split|].
  now rewrite Hrun.
Qed.

Lemma analyze_blank_script_rejected_witness :
  let s := setNarratorScript [LF; 32%N; 9%N] initialState in
  handleAnalyzeScript s = (setError (Some emptyScriptMessage) s, None)
  /\ error (fst (handleAnalyzeScript s)) = Some emptyScriptMessage
  /\ isAnalyzing (fst (handleAnalyzeScript s)) = isAnalyzing s
  /\ styleInstructions (fst (handleAnalyzeScript s)) = styleInstructions s
  /\ forall sys, app sys = s ->
       calls (@step Base64.audioUtils ClickAnalyze sys) = calls sys
       /\ pending (@step Base64.audioUtils ClickAnalyze sys) = pending sys.
Proof.
  apply (@analyze_blank_script_rejected Base64.audioUtils
           (setNarratorScript [LF; 32%N; 9%N] initialState)).
  reflexivity.
Defined.

(** Validation in terms of the characters: a text, or a script, made of
    white space only (the empty one included) is rejected. *)
Lemma white_space_only_rejected (s : AppState) :
  (forallb isWhiteSpace (text s) = true ->
   handleGenerateSpeech s = (setError (Some emptyTextMessage) s, None))
  /\ (forallb isWhiteSpace (narratorScript s) = true ->
      handleAnalyzeScript s = (setError (Some emptyScriptMessage) s, None)).
Proof.
  split; intros Hblank; apply trim_blank in Hblank.
  - unfold handleGenerateSpeech. now rewrite Hblank.
  - unfold handleAnalyzeScript. now rewrite Hblank.
Qed.

(** ** The request built by [handleGenerateSpeech] *)

(** A text that is not blank reaches the remote call. *)
Lemma handleGenerateSpeech_sends (s : AppState) :
  trim (text s) <> [] ->
  exists request,
    handleGenerateSpeech s
    = (setIsLoading true (setAudioUrl None (setError None s)), Some request)
    /\ GenAI.contents request
       = (if truthy (trim (styleInstructions s))
          then trim (styleInstructions s) ++ [LF; LF] ++ trim (text s)
          else trim (text s))
    /\ GenAI.config request
       = Some {| GenAI.responseModalities := [GenAI.AUDIO];
                 GenAI.speechConfig :=
                   {| GenAI.voiceName := selectedVoice s;
                      GenAI.rate := if strictNeq (speed s) one
                                    then Some (speed s) else None;
                      GenAI.pitch := if strictNeq (pitch s) zero
                                     then Some (pitch s) else None |} |}.
Proof.
  intros Htext. apply truthy_true in Htext.
  unfold handleGenerateSpeech. rewrite Htext. simpl negb. cbv iota.
  eexists. split; [reflexivity|]. split; reflexivity.
Qed.

(** C4.  When the text is not empty after trimming, the prompt sent is
    the trimmed style instructions, two newlines and the trimmed text
    when the trimmed style instructions are not empty, and the trimmed
    text alone otherwise. *)
Theorem generate_prompt_assembly (s : AppState) :
  trim (text s) <> [] ->
  exists s' request,
    handleGenerateSpeech s = (s', Some request)
    /\ (trim (styleInstructions s) <> [] ->
        GenAI.contents request
        = trim (styleInstructions s) ++ [LF; LF] ++ trim (text s))
    /\ (trim (styleInstructions s) = [] ->
        GenAI.contents request = trim (text s)).
Proof.
  intros Htext.
  destruct (handleGenerateSpeech_sends s Htext) as (request & Hrun & Hc & _).
  exists (setIsLoading true (setAudioUrl None (setError None s))), request.
  split; [exact Hrun|]. rewrite Hc. split; intros Hstyle.
  - apply truthy_true in Hstyle. now rewrite Hstyle.
  - now rewrite Hstyle.
Qed.

Lemma generate_prompt_assembly_witness :
  let s := setText (lit " Hi there ")
             (setStyleInstructions (lit "Read warmly:") initialState) in
  exists s' request,
    handleGenerateSpeech s = (s', Some request)
    /\ (trim (styleInstructions s) <> [] ->
        GenAI.contents request
        = trim (styleInstructions s) ++ [LF; LF] ++ trim (text s))
    /\ (trim (styleInstructions s) = [] ->
        GenAI.contents request = trim (text s)).
Proof.
  apply (generate_prompt_assembly
           (setText (lit " Hi there ")
              (setStyleInstructions (lit "Read warmly:") initialState))).
  vm_compute. discriminate.
Defined.

(** The two prompts the specification gives as examples. *)
Example prompt_with_style :
  GenAI.contents <$>
    snd (handleGenerateSpeech
           (setText (lit "Hi there")
              (setStyleInstructions (lit "Read warmly:") initialState)))
  = Some (lit "Read warmly:" ++ [LF; LF] ++ lit "Hi there").
Proof. reflexivity. Qed.

Example prompt_without_style :
  GenAI.contents <$>
    snd (handleGenerateSpeech
           (setText (lit "Hi there")
              (setStyleInstructions [] initialState)))
  = Some (lit "Hi there").
Proof. reflexivity. Qed.

(** C3.  The request carries a [rate] exactly when the speed is not 1.0
    and a [pitch] exactly when the pitch is not a zero; a member that is
    present holds the input unchanged. *)
Theorem generate_request_overrides (s : AppState) :
  trim (text s) <> [] ->
  exists s' request cfg,
    handleGenerateSpeech s = (s', Some request)
    /\ GenAI.config request = Some cfg
    /\ (is_Some (GenAI.rate (GenAI.speechConfig cfg)) <-> speed s <> one)
    /\ (forall v, GenAI.rate (GenAI.speechConfig cfg) = Some v -> v = speed s)
    /\ (is_Some (GenAI.pitch (GenAI.speechConfig cfg))
        <-> forall sign, pitch s <> S754_zero sign)
    /\ (forall v, GenAI.pitch (GenAI.speechConfig cfg) = Some v
                  -> v = pitch s).
Proof.
  intros Htext.
  destruct (handleGenerateSpeech_sends s Htext) as (request & Hrun & _ & Hcfg).
  eexists _, request, _. split; [exact Hrun|]. split; [exact Hcfg|].
  cbn [GenAI.speechConfig GenAI.rate GenAI.pitch]. unfold strictNeq.
  repeat split.
  - destruct (strictEq (speed s) one) eqn:E; simpl.
    + intros [v Hv]; discriminate.
    + intros _ Hone. apply strictEq_one in Hone. congruence.
  - destruct (strictEq (speed s) one) eqn:E; simpl.
    + apply strictEq_one in E. congruence.
    + eauto.
  - destruct (strictEq (speed s) one); simpl; congruence.
  - destruct (strictEq (pitch s) zero) eqn:E; simpl.
    + intros [v Hv]; discriminate.
    + intros _ sign Hz.
      assert (strictEq (pitch s) zero = true)
        by (apply strictEq_zero; eauto).
      congruence.
  - destruct (strictEq (pitch s) zero) eqn:E; simpl.
    + apply strictEq_zero in E as [sign Hz]. intros H. now destruct (H sign).
    + eauto.
  - destruct (strictEq (pitch s) zero); simpl; congruence.
Qed.

(** Speed 1.25 (binary64 [5 * 2^-2]) and pitch 0. *)
Lemma generate_request_overrides_witness :
  let s := setSpeed (S754_finite false 5629499534213120 (-52)) initialState in
  exists s' request cfg,
    handleGenerateSpeech s = (s', Some request)
    /\ GenAI.config request = Some cfg
    /\ (is_Some (GenAI.rate (GenAI.speechConfig cfg)) <-> speed s <> one)
    /\ (forall v, GenAI.rate (GenAI.speechConfig cfg) = Some v -> v = speed s)
    /\ (is_Some (GenAI.pitch (GenAI.speechConfig cfg))
        <-> forall sign, pitch s <> S754_zero sign)
    /\ (forall v, GenAI.pitch (GenAI.speechConfig cfg) = Some v
                  -> v = pitch s).
Proof.
  apply (generate_request_overrides
           (setSpeed (S754_finite false 5629499534213120 (-52))
              initialState)).
  vm_compute. discriminate.
Defined.

(** What the request holds at the neutral values, at another speed and
    pitch, and at a negative zero pitch. *)
Example overrides_at_neutral :
  (fun r => GenAI.speechConfig <$> GenAI.config r) <$>
    snd (handleGenerateSpeech initialState)
  = Some (Some {| GenAI.voiceName := lit "achernar";
                  GenAI.rate := None; GenAI.pitch := None |}).
Proof. reflexivity. Qed.

Example overrides_when_changed :
  let fast := S754_finite false 5629499534213120 (-52) in
  let low := S754_finite true 4503599627370496 (-51) in
  (fun r => GenAI.speechConfig <$> GenAI.config r) <$>
    snd (handleGenerateSpeech (setPitch low (setSpeed fast initialState)))
  = Some (Some {| GenAI.voiceName := lit "achernar";
                  GenAI.rate := Some fast; GenAI.pitch := Some low |}).
Proof. reflexivity. Qed.

Example overrides_at_negative_zero :
  (fun r => GenAI.speechConfig <$> GenAI.config r) <$>
    snd (handleGenerateSpeech (setPitch (S754_zero true) initialState))
  = Some (Some {| GenAI.voiceName := lit "achernar";
                  GenAI.rate := None; GenAI.pitch := None |}).
Proof. reflexivity. Qed.

(** ** The continuations, case by case *)

Section Continuations.

Context {audio : AudioUtils}.

Lemma handleGenerateSpeech_resume_eq outcome a b :
  handleGenerateSpeech_resume outcome (a, b)
  = match synthesized "No audio data received from API." outcome with
    | inl err =>
        (inr tt,
         (setIsLoading false
            (setError (Some (lit "An error occurred: " ++ message err)) a),
          b))
    | inr pcmData =>
        let made := createObjectURL (Wav.pcmToWavBlob pcmData pcmFormat) b in
        (inr tt,
         (setIsLoading false (setAudioUrl (Some (fst made)) a), snd made))
    end.
Proof.
  unfold handleGenerateSpeech_resume, synthesized, tryCatchFinally, bind,
    await, requireAudio, orThrow, callBrowser, setState, ret, throw.
  destruct outcome as [response|err]; [|reflexivity].
  destruct (truthyOpt (inlineAudio response)); [|reflexivity].
  cbn [fst snd].
  destruct (decode (default [] (inlineAudio response))); reflexivity.
Qed.

Lemma handlePreviewVoice_resume_eq outcome a b :
  handlePreviewVoice_resume outcome (a, b)
  = match synthesized "No audio data received for preview." outcome with
    | inl err =>
        (inr tt,
         (setPreviewLoadingVoiceId None
            (setError (Some (lit "Preview failed: " ++ message err)) a),
          b))
    | inr pcmData =>
        let made := createObjectURL (Wav.pcmToWavBlob pcmData pcmFormat) b in
        (inr tt,
         (setPreviewLoadingVoiceId None a, playAudio (fst made) (snd made)))
    end.
Proof.
  unfold handlePreviewVoice_resume, synthesized, tryCatchFinally, bind,
    await, requireAudio, orThrow, callBrowser, onBrowser, setState, ret,
    throw.
  destruct outcome as [response|err]; [|reflexivity].
  destruct (truthyOpt (inlineAudio response)); [|reflexivity].
  cbn [fst snd].
  destruct (decode (default [] (inlineAudio response))); reflexivity.
Qed.

Lemma handleAnalyzeScript_resume_eq outcome a b :
  handleAnalyzeScript_resume outcome (a, b)
  = match outcome with
    | Fulfilled response =>
        match GenAI.text response with
        | Some t =>
            (inr tt, (setIsAnalyzing false (setStyleInstructions (trim t) a),
                      b))
        | None =>
            (inr tt,
             (setIsAnalyzing false
                (setError (Some (lit "Analysis failed: "
                                 ++ message undefinedTrimError)) a),
              b))
        end
    | Rejected err =>
        (inr tt,
         (setIsAnalyzing false
            (setError (Some (lit "Analysis failed: " ++ message err)) a),
          b))
    end.
Proof.
  unfold handleAnalyzeScript_resume, tryCatchFinally, bind, await, setState,
    ret, throw.
  destruct outcome as [response|err]; [|reflexivity].
  destruct (GenAI.text response); reflexivity.
Qed.

(** A failing synthesis yields no samples. *)
Lemma synthesized_fails msg outcome :
  SynthesisFails outcome -> exists err, synthesized msg outcome = inl err.
Proof.
  intros [err|response Hnone|response b64 err Hsome Hdec]; simpl.
  - eauto.
  - rewrite Hnone. eauto.
  - rewrite Hsome. simpl. destruct (truthy b64); [rewrite Hdec|]; eauto.
Qed.

End Continuations.

(** ** Preview *)

(** C7.  When the remote call of a preview is rejected, the continuation
    clears the preview busy flag, leaves the browser as it was (no object
    URL is made, no audio is started), and shows the error message behind
    the prefix [Preview failed: ]. *)
Theorem preview_remote_error {audio : AudioUtils} (err : JsError)
    (a : AppState) (b : Browser) :
  let after := snd (handlePreviewVoice_resume (Rejected err) (a, b)) in
  previewLoadingVoiceId (fst after) = None
  /\ snd after = b
  /\ error (fst after) = Some (lit "Preview failed: " ++ message err).
Proof.
  rewrite handlePreviewVoice_resume_eq.
  cbn [synthesized fst snd]. auto.
Qed.

(** ** Mutual exclusion of generations *)

(** C2.  On every page whose generate busy flag is set, invoking the
    generation again, which the page does by a click on the Generate
    button, is rejected: the button is disabled, the handler does not
    run, no request is added to those sent, nothing more is awaited, and
    the component and the browser are as before. *)
Theorem generate_click_ignored_while_busy {audio : AudioUtils}
    (sys : System) :
  isLoading (app sys) = true ->
  step ClickGenerate sys = sys
  /\ calls (step ClickGenerate sys) = calls sys
  /\ pending (step ClickGenerate sys) = pending sys
  /\ app (step ClickGenerate sys) = app sys
  /\ browser (step ClickGenerate sys) = browser sys.
Proof.
  intros Hbusy. unfold step. rewrite Hbusy. repeat split.
Qed.

Lemma generate_click_ignored_while_busy_witness :
  @step Base64.audioUtils ClickGenerate busyPage = busyPage
  /\ calls (@step Base64.audioUtils ClickGenerate busyPage) = calls busyPage
  /\ pending (@step Base64.audioUtils ClickGenerate busyPage)
     = pending busyPage
  /\ app (@step Base64.audioUtils ClickGenerate busyPage) = app busyPage
  /\ browser (@step Base64.audioUtils ClickGenerate busyPage)
     = browser busyPage.
Proof.
  apply (@generate_click_ignored_while_busy Base64.audioUtils busyPage).
  vm_compute; reflexivity.
Defined.

(** ** What a preview and an analysis leave alone *)

Lemma previewWrites_frame a a' :
  previewWrites a a' -> sameInputsAndResult a a'.
Proof. intros ->. repeat split. Qed.

Lemma analyzeWrites_frame a a' :
  analyzeWrites a a' -> sameInputsAndResult a a'.
Proof. intros ->. repeat split. Qed.

Lemma handlePreviewVoice_writes voiceId s :
  previewWrites s (fst (handlePreviewVoice voiceId s)).
Proof.
  unfold handlePreviewVoice, previewWrites.
  destruct (truthyOpt (previewLoadingVoiceId s)); destruct s; reflexivity.
Qed.

Lemma handlePreviewVoice_resume_writes {audio : AudioUtils} outcome a b :
  previewWrites a (fst (snd (handlePreviewVoice_resume outcome (a, b)))).
Proof.
  rewrite handlePreviewVoice_resume_eq. unfold previewWrites.
  destruct (synthesized _ outcome); destruct a; reflexivity.
Qed.

Lemma handleAnalyzeScript_writes s :
  analyzeWrites s (fst (handleAnalyzeScript s))
  /\ styleInstructions (fst (handleAnalyzeScript s)) = styleInstructions s.
Proof.
  unfold handleAnalyzeScript, analyzeWrites.
  destruct (negb (truthy (trim (narratorScript s)))); destruct s; split;
    reflexivity.
Qed.

Lemma handleAnalyzeScript_resume_writes {audio : AudioUtils} outcome a b :
  let after := snd (handleAnalyzeScript_resume outcome (a, b)) in
  analyzeWrites a (fst after)
  /\ snd after = b
  /\ (styleInstructions (fst after) = styleInstructions a
      \/ exists response t,
           outcome = Fulfilled response /\ GenAI.text response = Some t
           /\ styleInstructions (fst after) = trim t).
Proof.
  rewrite handleAnalyzeScript_resume_eq. unfold analyzeWrites.
  destruct outcome as [response|err].
  - destruct (GenAI.text response) as [t|] eqn:Ht.
    + split; [destruct a; reflexivity|]. split; [reflexivity|].
      right. exists response, t. auto.
    + split; [destruct a; reflexivity|]. split; [reflexivity|]. now left.
  - split; [destruct a; reflexivity|]. split; [reflexivity|]. now left.
Qed.

(** C10.  Both parts of [handlePreviewVoice] change at most the preview
    busy flag and the error message; both parts of [handleAnalyzeScript]
    change at most the analyze busy flag, the error message and the
    style instructions, the latter only when the call succeeded with a
    text.  So the displayed result, the text, the selected voice, the
    speed and the pitch are as before, whatever the outcome. *)
Theorem preview_and_analyze_frame {audio : AudioUtils} :
  (forall voiceId s,
     previewWrites s (fst (handlePreviewVoice voiceId s))
     /\ sameInputsAndResult s (fst (handlePreviewVoice voiceId s)))
  /\ (forall outcome a b,
        previewWrites a
          (fst (snd (handlePreviewVoice_resume outcome (a, b))))
        /\ sameInputsAndResult a
             (fst (snd (handlePreviewVoice_resume outcome (a, b)))))
  /\ (forall s,
        analyzeWrites s (fst (handleAnalyzeScript s))
        /\ styleInstructions (fst (handleAnalyzeScript s))
           = styleInstructions s
        /\ sameInputsAndResult s (fst (handleAnalyzeScript s)))
  /\ (forall outcome a b,
        analyzeWrites a
          (fst (snd (handleAnalyzeScript_resume outcome (a, b))))
        /\ sameInputsAndResult a
             (fst (snd (handleAnalyzeScript_resume outcome (a, b))))
        /\ (styleInstructions
              (fst (snd (handleAnalyzeScript_resume outcome (a, b))))
            = styleInstructions a
            \/ exists response t,
                 outcome = Fulfilled response
                 /\ GenAI.text response = Some t)).
Proof.
  split; [|split; [|split]].
  - intros voiceId s. pose proof (handlePreviewVoice_writes voiceId s) as H.
    split; [exact H|]. now apply previewWrites_frame.
  - intros outcome a b.
    pose proof (handlePreviewVoice_resume_writes outcome a b) as H.
    split; [exact H|]. now apply previewWrites_frame.
  - intros s. destruct (handleAnalyzeScript_writes s) as [H Hstyle].
    split; [exact H|]. split; [exact Hstyle|]. now apply analyzeWrites_frame.
  - intros outcome a b.
    destruct (handleAnalyzeScript_resume_writes outcome a b) as (H & _ & Hs).
    split; [exact H|]. split; [now apply analyzeWrites_frame|].
    destruct Hs as [Hs|(response & t & -> & Ht & _)]; [now left|].
    right. eauto.
Qed.

(** ** One generation at a time *)

Section Invariant.

Context {audio : AudioUtils}.

Lemma render_generateInvariant a sys :
  isLoading a = isLoading (app sys) -> audioUrl a = audioUrl (app sys) ->
  generateInvariant sys -> generateInvariant (render a sys).
Proof.
  unfold generateInvariant, render. cbn [app pending].
  intros -> ->. trivial.
Qed.

Lemma dispatch_generateInvariant t r sys :
  t <> GenerateTask ->
  isLoading (fst r) = isLoading (app sys) ->
  audioUrl (fst r) = audioUrl (app sys) ->
  generateInvariant sys -> generateInvariant (dispatch t r sys).
Proof.
  intros Ht Hl Hu Hinv. destruct r as [a [request|]]; cbn [fst] in *.
  - unfold generateInvariant, dispatch in *. cbn [app pending].
    rewrite Hl, Hu. destruct t; [congruence| |]; exact Hinv.
  - now apply render_generateInvariant.
Qed.

Lemma step_generateInvariant e sys :
  generateInvariant sys -> generateInvariant (step e sys).
Proof.
  intros Hinv. destruct e; cbn [step]; cbv zeta;
    try (apply render_generateInvariant; [reflexivity|reflexivity|exact Hinv]).
  - (* ClickAnalyze *)
    destruct (isAnalyzing (app sys)); [exact Hinv|].
    destruct (handleAnalyzeScript_writes (app sys)) as [Hw _].
    apply analyzeWrites_frame in Hw.
    apply dispatch_generateInvariant; trivial; [discriminate| |apply Hw].
    unfold handleAnalyzeScript.
    now destruct (negb (truthy (trim (narratorScript (app sys))))).
  - (* SelectVoice *)
    destruct (VOICES !! index); [|exact Hinv].
    destruct (isVoiceListOpen (app sys)); [|exact Hinv].
    now apply render_generateInvariant.
  - (* ClickPreview *)
    destruct (VOICES !! index) as [v|]; [|exact Hinv].
    destruct (_ && _); [|exact Hinv].
    pose proof (handlePreviewVoice_writes (id v) (app sys)) as Hw.
    apply previewWrites_frame in Hw.
    apply dispatch_generateInvariant; trivial; [discriminate| |apply Hw].
    unfold handlePreviewVoice.
    now destruct (truthyOpt (previewLoadingVoiceId (app sys))).
  - (* ClickGenerate *)
    destruct (isLoading (app sys)) eqn:Hbusy; [exact Hinv|].
    unfold handleGenerateSpeech.
    destruct (negb (truthy (trim (text (app sys))))).
    + now apply render_generateInvariant.
    + destruct Hinv as [Hcount _]. rewrite Hbusy in Hcount.
      unfold generateInvariant, dispatch. cbn. now rewrite Hcount.
  - (* Settle *)
    destruct (suspended t (pending sys)) eqn:Hsusp; [exact Hinv|].
    destruct Hinv as [Hcount Hnone].
    unfold generateInvariant. cbn [app pending].
    destruct t; cbn [resume wake generating suspended] in *.
    + rewrite handleGenerateSpeech_resume_eq.
      destruct (synthesized _ outcome); cbn; split; try discriminate;
        destruct (isLoading (app sys)); rewrite Hcount; reflexivity.
    + pose proof (handlePreviewVoice_resume_writes outcome (app sys)
                    (browser sys)) as Hw.
      rewrite Hw. cbn. split; trivial.
    + destruct (handleAnalyzeScript_resume_writes outcome (app sys)
                  (browser sys)) as [Hw _].
      rewrite Hw. cbn. split; trivial.
  - (* AudioEnded *)
    destruct (bool_decide _); exact Hinv.
Qed.

Lemma run_generateInvariant events sys :
  generateInvariant sys -> generateInvariant (run events sys).
Proof.
  revert sys. induction events as [|e events IH]; intros sys Hinv.
  - exact Hinv.
  - apply (IH (step e sys)). now apply step_generateInvariant.
Qed.

Lemma initial_generateInvariant : generateInvariant initialSystem.
Proof. split; [reflexivity|discriminate]. Qed.

End Invariant.

(** ** A failed generation *)

(** C9.  On any page reached from the mounted one, a click on the enabled
    Generate button with a text that is not blank sends a request and, in
    the same turn, clears the displayed result; the display stays empty
    for as long as the call is awaited, whatever else happens; and when
    the remote call, the extraction of the payload or its decoding then
    fails, the display is still empty: the earlier result is not put
    back. *)
Theorem failed_generate_shows_no_result {audio : AudioUtils}
    (events others : list Event) (outcome : Settled) :
  let before := run events initialSystem in
  let sent := step ClickGenerate before in
  let waiting := run others sent in
  let settled := step (Settle GenerateTask outcome) waiting in
  isLoading (app before) = false ->
  trim (text (app before)) <> [] ->
  generating (pending waiting) > 0 ->
  SynthesisFails outcome ->
  (exists request, calls sent = request :: calls before)
  /\ audioUrl (app sent) = None
  /\ audioUrl (app waiting) = None
  /\ audioUrl (app settled) = None
  /\ isLoading (app settled) = false.
Proof.
  intros before sent waiting settled Hidle Htext Hwait Hfail.
  assert (Hinv : generateInvariant waiting).
  { apply run_generateInvariant, step_generateInvariant,
      run_generateInvariant, initial_generateInvariant. }
  destruct (handleGenerateSpeech_sends _ Htext) as (request & Hrun & _).
  assert (Hsent : sent = dispatch GenerateTask
                           (handleGenerateSpeech (app before)) before).
  { unfold sent, step. now rewrite Hidle. }
  rewrite Hrun in Hsent.
  split; [exists request; now rewrite Hsent|].
  split; [now rewrite Hsent|].
  destruct Hinv as [Hcount Hnone].
  assert (Hbusy : isLoading (app waiting) = true).
  { destruct (isLoading (app waiting)); [reflexivity|lia]. }
  specialize (Hnone Hbusy). split; [exact Hnone|].
  destruct (synthesized_fails "No audio data received from API." _ Hfail)
    as [err Herr].
  unfold settled, step.
  destruct (suspended GenerateTask (pending waiting)) eqn:Hsusp;
    [cbn in Hsusp; lia|].
  cbn [resume app]. rewrite handleGenerateSpeech_resume_eq, Herr.
  cbn. auto.
Qed.

(** A result is on display; a new generation is started, the voice list
    is opened meanwhile, and the remote call is then rejected. *)
Lemma failed_generate_shows_no_result_witness :
  let ok := Fulfilled (audioResponse (lit "AAECAwQF")) in
  let failure := Rejected {| message := lit "quota" |} in
  let before :=
    @run Base64.audioUtils [ClickGenerate; Settle GenerateTask ok]
      initialSystem in
  let sent := @step Base64.audioUtils ClickGenerate before in
  let waiting := @run Base64.audioUtils [ToggleVoiceList] sent in
  let settled :=
    @step Base64.audioUtils (Settle GenerateTask failure) waiting in
  (exists request, calls sent = request :: calls before)
  /\ audioUrl (app sent) = None
  /\ audioUrl (app waiting) = None
  /\ audioUrl (app settled) = None
  /\ isLoading (app settled) = false.
Proof.
  apply (@failed_generate_shows_no_result Base64.audioUtils
           [ClickGenerate;
            Settle GenerateTask (Fulfilled (audioResponse (lit "AAECAwQF")))]
           [ToggleVoiceList]
           (Rejected {| message := lit "quota" |})).
  - vm_compute; reflexivity.
  - vm_compute; discriminate.
  - vm_compute; lia.
  - constructor.
Defined.

(** On that page a result was on display before the click. *)
Example result_displayed_before_failure :
  audioUrl (app (@run Base64.audioUtils
                   [ClickGenerate;
                    Settle GenerateTask
                      (Fulfilled (audioResponse (lit "AAECAwQF")))]
                   initialSystem))
  = Some 0.
Proof. vm_compute; reflexivity. Qed.

(** ** The object URL of a superseded result *)

(** The continuation of generation revokes nothing: every object URL
    that was live before it is live after it, with the same blob. *)
Lemma handleGenerateSpeech_resume_keeps_urls {audio : AudioUtils}
    outcome a (b : Browser) (url : objectUrl) blob :
  url < nextUrl b ->
  objectUrls b !! url = Some blob ->
  objectUrls (snd (snd (handleGenerateSpeech_resume outcome (a, b)))) !! url
  = Some blob.
Proof.
  intros Hold Hlive. rewrite handleGenerateSpeech_resume_eq.
  destruct (synthesized _ outcome); cbn; [exact Hlive|].
  rewrite lookup_insert_ne by lia. exact Hlive.
Qed.

(** C6.  Two generations in a row, both successful: the second result
    replaces the first on display, but the object URL of the first is
    still registered, with its blob, after the second. *)
Theorem superseded_result_not_revoked :
  let first :=
    @run Base64.audioUtils
      [ClickGenerate;
       Settle GenerateTask (Fulfilled (audioResponse (lit "AAEC")))]
      initialSystem in
  let second :=
    @run Base64.audioUtils
      [ClickGenerate;
       Settle GenerateTask (Fulfilled (audioResponse (lit "AwQF")))]
      first in
  audioUrl (app first) = Some 0
  /\ audioUrl (app second) = Some 1
  /\ objectUrls (browser second) !! 0
     = Some (Wav.pcmToWavBlob [Byte.x00; Byte.x01; Byte.x02] pcmFormat).
Proof.
  split; [vm_compute; reflexivity|].
  split; [vm_compute; reflexivity|].
  vm_compute; reflexivity.
Qed.

(** ** Consequences on every reachable page *)

(** At most one generation is awaited at any time. *)
Lemma at_most_one_generation {audio : AudioUtils} (events : list Event) :
  generating (pending (run events initialSystem)) <= 1.
Proof.
  destruct (run_generateInvariant events initialSystem
              initial_generateInvariant) as [Hcount _].
  rewrite Hcount. destruct (isLoading _); lia.
Qed.

(** The synchronous part of a validated generation leaves no result on
    display, whatever was displayed. *)
Lemma handleGenerateSpeech_clears_result (s : AppState) :
  trim (text s) <> [] -> audioUrl (fst (handleGenerateSpeech s)) = None.
Proof.
  intros Htext.
  destruct (handleGenerateSpeech_sends s Htext) as (request & -> & _).
  reflexivity.
Qed.

(** The continuation of a failed generation does not write the result. *)
Lemma handleGenerateSpeech_resume_failure {audio : AudioUtils} outcome a b :
  SynthesisFails outcome ->
  audioUrl (fst (snd (handleGenerateSpeech_resume outcome (a, b))))
  = audioUrl a
  /\ snd (snd (handleGenerateSpeech_resume outcome (a, b))) = b.
Proof.
  intros Hfail.
  destruct (synthesized_fails "No audio data received from API." _ Hfail)
    as [err Herr].
  rewrite handleGenerateSpeech_resume_eq, Herr. split; reflexivity.
Qed.

(** ** No event releases a generated result *)

Section ObjectUrls.

Context {audio : AudioUtils}.

(** What an event does to the browser: nothing, or one new URL (played
    or not), or the revocation of a URL that an [Audio] element owns. *)
Lemma step_browser e sys :
  let b := browser sys in
  let b' := browser (step e sys) in
  b' = b
  \/ (exists blob, b' = snd (createObjectURL blob b))
  \/ (exists blob,
        b' = playAudio (nextUrl b) (snd (createObjectURL blob b)))
  \/ (exists url, url ∈ audios b /\ b' = revokeObjectURL url b).
Proof.
  destruct e; cbn [step]; cbv zeta; try (now left).
  - destruct (isAnalyzing (app sys)); [now left|].
    destruct (handleAnalyzeScript (app sys)) as [a [r|]]; now left.
  - destruct (VOICES !! index); [|now left].
    destruct (isVoiceListOpen (app sys)); now left.
  - destruct (VOICES !! index) as [v|]; [|now left].
    destruct (_ && _); [|now left].
    destruct (handlePreviewVoice (id v) (app sys)) as [a [r|]]; now left.
  - destruct (isLoading (app sys)); [now left|].
    destruct (handleGenerateSpeech (app sys)) as [a [r|]]; now left.
  - destruct (suspended t (pending sys)); [now left|].
    cbn [browser]. destruct t; cbn [resume].
    + rewrite handleGenerateSpeech_resume_eq.
      destruct (synthesized _ outcome); [now left|].
      right; left. eexists. reflexivity.
    + rewrite handlePreviewVoice_resume_eq.
      destruct (synthesized _ outcome); [now left|].
      right; right; left. eexists. reflexivity.
    + rewrite handleAnalyzeScript_resume_eq.
      destruct outcome as [response|err]; [|now left].
      destruct (GenAI.text response); now left.
  - destruct (bool_decide (url ∈ audios (browser sys))) eqn:Hin;
      [|now left].
    apply bool_decide_eq_true in Hin.
    right; right; right. exists url. now split.
Qed.

(** An unowned URL stays unowned, so registered, through every event. *)
Lemma step_unowned e sys url : unowned sys url -> unowned (step e sys) url.
Proof.
  intros (Hlt & Hfree & Hlive). unfold unowned.
  destruct (step_browser e sys)
    as [-> | [(blob & ->) | [(blob & ->) | (u & Hu & ->)]]]; cbn.
  - auto.
  - split; [lia|]. split; [exact Hfree|].
    rewrite lookup_insert_ne by lia. exact Hlive.
  - split; [lia|]. split.
    + rewrite elem_of_cons. intros [->|Hin]; [lia|contradiction].
    + rewrite lookup_insert_ne by lia. exact Hlive.
  - split; [exact Hlt|]. split; [exact Hfree|].
    rewrite lookup_delete_ne by (intros ->; contradiction). exact Hlive.
Qed.

Lemma run_unowned events sys url :
  unowned sys url -> unowned (run events sys) url.
Proof.
  revert sys. induction events as [|e events IH]; intros sys Hu.
  - exact Hu.
  - apply (IH (step e sys)). now apply step_unowned.
Qed.

(** The result on display changes only when a generation starts, which
    clears it, or succeeds, which shows the URL just made. *)
Lemma step_audioUrl e sys :
  audioUrl (app (step e sys)) = audioUrl (app sys)
  \/ audioUrl (app (step e sys)) = None
  \/ (audioUrl (app (step e sys)) = Some (nextUrl (browser sys))
      /\ exists blob,
           browser (step e sys) = snd (createObjectURL blob (browser sys))).
Proof.
  destruct e; cbn [step]; cbv zeta; try (now left).
  - destruct (isAnalyzing (app sys)); [now left|].
    destruct (handleAnalyzeScript_writes (app sys)) as [Hw _].
    apply analyzeWrites_frame in Hw. destruct Hw as [Hw _].
    destruct (handleAnalyzeScript (app sys)) as [a [r|]]; now left.
  - destruct (VOICES !! index); [|now left].
    destruct (isVoiceListOpen (app sys)); now left.
  - destruct (VOICES !! index) as [v|]; [|now left].
    destruct (_ && _); [|now left].
    pose proof (handlePreviewVoice_writes (id v) (app sys)) as Hw.
    apply previewWrites_frame in Hw. destruct Hw as [Hw _].
    destruct (handlePreviewVoice (id v) (app sys)) as [a [r|]]; now left.
  - destruct (isLoading (app sys)); [now left|].
    unfold handleGenerateSpeech.
    destruct (negb (truthy (trim (text (app sys))))); [now left|].
    right; left. reflexivity.
  - destruct (suspended t (pending sys)); [now left|].
    cbn [app browser]. destruct t; cbn [resume].
    + rewrite handleGenerateSpeech_resume_eq.
      destruct (synthesized _ outcome); [now left|].
      right; right. cbn. split; [reflexivity|]. eexists. reflexivity.
    + pose proof (handlePreviewVoice_resume_writes outcome (app sys)
                    (browser sys)) as Hw.
      apply previewWrites_frame in Hw. destruct Hw as [Hw _]. now left.
    + destruct (handleAnalyzeScript_resume_writes outcome (app sys)
                  (browser sys)) as [Hw _].
      apply analyzeWrites_frame in Hw. destruct Hw as [Hw _]. now left.
  - destruct (bool_decide _); now left.
Qed.

Lemma step_urlInvariant e sys : urlInvariant sys -> urlInvariant (step e sys).
Proof.
  intros [Hplay Hshown]. split.
  - intros url.
    destruct (step_browser e sys)
      as [-> | [(blob & ->) | [(blob & ->) | (u & Hu & ->)]]]; cbn.
    + apply Hplay.
    + intros Hin. apply Hplay in Hin. lia.
    + rewrite elem_of_cons. intros [->|Hin]; [lia|].
      apply Hplay in Hin. lia.
    + apply Hplay.
  - intros url Hurl.
    destruct (step_audioUrl e sys) as [Hsame | [Hnone | [Hnew [blob Hb]]]].
    + apply step_unowned, Hshown. congruence.
    + congruence.
    + assert (url = nextUrl (browser sys)) as -> by congruence.
      unfold unowned. rewrite Hb. cbn. split; [lia|]. split.
      * intros Hin. apply Hplay in Hin. lia.
      * rewrite lookup_insert_eq. eauto.
Qed.

Lemma run_urlInvariant events sys :
  urlInvariant sys -> urlInvariant (run events sys).
Proof.
  revert sys. induction events as [|e events IH]; intros sys Hinv.
  - exact Hinv.
  - apply (IH (step e sys)). now apply step_urlInvariant.
Qed.

(** X16.  Whatever was once on display stays registered for ever: no
    sequence of events revokes the object URL of a generated result,
    displayed or superseded. *)
Lemma displayed_result_never_revoked (events later : list Event)
    (url : objectUrl) :
  let shown := run events initialSystem in
  audioUrl (app shown) = Some url ->
  is_Some (objectUrls (browser (run later shown)) !! url).
Proof.
  intros shown Hurl.
  assert (Hinv : urlInvariant shown).
  { apply run_urlInvariant. split.
    - intros u Hin. cbn in Hin. now apply not_elem_of_nil in Hin.
    - discriminate. }
  destruct Hinv as [_ Hshown].
  apply (run_unowned later shown url (Hshown url Hurl)).
Qed.

End ObjectUrls.

(* ===================================================================== *)
(** * Further properties of the handlers *)
(* ===================================================================== *)

(** ** What [trim] leaves *)

Lemma trimStart_snoc (l : jsstring) c :
  isWhiteSpace c = false -> trimStart (l ++ [c]) = trimStart l ++ [c].
Proof.
  intros Hc. induction l as [|d l IH]; simpl.
  - now rewrite Hc.
  - destruct (isWhiteSpace d); [exact IH|reflexivity].
Qed.

(** A trimmed string that is not empty starts with a character that is
    not white space. *)
Lemma trim_head (s : jsstring) :
  trim s <> [] -> exists c rest, trim s = c :: rest /\ isWhiteSpace c = false.
Proof.
  unfold trim, trimEnd. destruct (trimStart s) as [|c r] eqn:Hs.
  - intros H. now destruct H.
  - intros _. apply trimStart_head in Hs.
    simpl rev. rewrite (trimStart_snoc _ _ Hs), rev_app_distr. simpl.
    eauto.
Qed.

(** And it ends with one. *)
Lemma trim_last (s : jsstring) :
  trim s <> [] -> exists front d, trim s = front ++ [d] /\ isWhiteSpace d = false.
Proof.
  unfold trim, trimEnd.
  destruct (trimStart (rev (trimStart s))) as [|d t] eqn:Ht.
  - intros H. now destruct H.
  - intros _. apply trimStart_head in Ht. simpl. eauto.
Qed.

(** Trimming twice is trimming once. *)
Lemma trim_idempotent (s : jsstring) : trim (trim s) = trim s.
Proof.
  destruct (trim s) as [|c0 r0] eqn:Hs; [reflexivity|].
  assert (Hne : trim s <> []) by (rewrite Hs; discriminate).
  rewrite <- Hs.
  clear c0 r0 Hs.
  destruct (trim_head s Hne) as (c & r & Hhead & Hc).
  destruct (trim_last s Hne) as (front & d & Hlast & Hd).
  unfold trim at 1. unfold trimEnd.
  rewrite Hhead at 1. simpl trimStart. rewrite Hc.
  rewrite <- Hhead, Hlast, rev_app_distr. simpl. rewrite Hd.
  simpl. now rewrite rev_involutive.
Qed.

(** ** The prompt *)

(** X1.  The prompt that [handleGenerateSpeech] sends never starts and
    never ends with a white-space character, whatever surrounds the text
    and the style instructions in their fields. *)
Theorem prompt_has_no_outer_white_space (s : AppState) :
  trim (text s) <> [] ->
  exists request,
    snd (handleGenerateSpeech s) = Some request
    /\ (exists c rest,
          GenAI.contents request = c :: rest /\ isWhiteSpace c = false)
    /\ (exists front d,
          GenAI.contents request = front ++ [d] /\ isWhiteSpace d = false).
Proof.
  intros Htext.
  destruct (handleGenerateSpeech_sends s Htext) as (request & Hrun & Hc & _).
  exists request. rewrite Hrun. split; [reflexivity|]. rewrite Hc.
  destruct (trim_last _ Htext) as (front & d & Hlast & Hd).
  destruct (truthy (trim (styleInstructions s))) eqn:Hstyle.
  - apply truthy_true in Hstyle.
    destruct (trim_head _ Hstyle) as (c & rest & Hhead & Hws).
    split.
    + exists c, (rest ++ [LF; LF] ++ trim (text s)). now rewrite Hhead.
    + exists (trim (styleInstructions s) ++ [LF; LF] ++ front), d.
      rewrite Hlast at 1. now rewrite <- !app_assoc.
  - split.
    + apply trim_head, Htext.
    + eauto.
Qed.

Lemma prompt_has_no_outer_white_space_witness :
  let s := setText ([LF; 9%N] ++ lit " Hi there " ++ [160%N])
             (setStyleInstructions (lit "  Read warmly: ") initialState) in
  exists request,
    snd (handleGenerateSpeech s) = Some request
    /\ (exists c rest,
          GenAI.contents request = c :: rest /\ isWhiteSpace c = false)
    /\ (exists front d,
          GenAI.contents request = front ++ [d] /\ isWhiteSpace d = false).
Proof.
  apply (prompt_has_no_outer_white_space
           (setText ([LF; 9%N] ++ lit " Hi there " ++ [160%N])
              (setStyleInstructions (lit "  Read warmly: ") initialState))).
  vm_compute. discriminate.
Defined.

(** ** What a generation leaves alone *)

Lemma handleGenerateSpeech_writes (s : AppState) :
  generateWrites s (fst (handleGenerateSpeech s)).
Proof.
  unfold handleGenerateSpeech, generateWrites.
  destruct (negb (truthy (trim (text s)))); destruct s; reflexivity.
Qed.

Lemma handleGenerateSpeech_resume_writes {audio : AudioUtils} outcome a b :
  generateWrites a (fst (snd (handleGenerateSpeech_resume outcome (a, b)))).
Proof.
  rewrite handleGenerateSpeech_resume_eq. unfold generateWrites.
  destruct (synthesized _ outcome); destruct a; reflexivity.
Qed.

Lemma generateWrites_frame a a' :
  generateWrites a a' ->
  text a' = text a /\ styleInstructions a' = styleInstructions a
  /\ selectedVoice a' = selectedVoice a
  /\ speed a' = speed a /\ pitch a' = pitch a
  /\ narratorScript a' = narratorScript a
  /\ isAnalyzing a' = isAnalyzing a
  /\ previewLoadingVoiceId a' = previewLoadingVoiceId a
  /\ isVoiceListOpen a' = isVoiceListOpen a.
Proof. intros ->. repeat split. Qed.

(** X2.  Both parts of [handleGenerateSpeech], whatever the input and
    the outcome, change at most the error message, the displayed result
    and the generate busy flag: the text, the style instructions, the
    voice, the speed, the pitch, the script, the voice list and the busy
    flags of analysis and preview are as before. *)
Theorem generate_frame {audio : AudioUtils} :
  (forall s,
     generateWrites s (fst (handleGenerateSpeech s))
     /\ text (fst (handleGenerateSpeech s)) = text s
     /\ styleInstructions (fst (handleGenerateSpeech s)) = styleInstructions s
     /\ selectedVoice (fst (handleGenerateSpeech s)) = selectedVoice s
     /\ isAnalyzing (fst (handleGenerateSpeech s)) = isAnalyzing s
     /\ previewLoadingVoiceId (fst (handleGenerateSpeech s))
        = previewLoadingVoiceId s)
  /\ (forall outcome a b,
        let a' := fst (snd (handleGenerateSpeech_resume outcome (a, b))) in
        generateWrites a a'
        /\ text a' = text a
        /\ styleInstructions a' = styleInstructions a
        /\ selectedVoice a' = selectedVoice a
        /\ isAnalyzing a' = isAnalyzing a
        /\ previewLoadingVoiceId a' = previewLoadingVoiceId a).
Proof.
  split.
  - intros s. pose proof (handleGenerateSpeech_writes s) as Hw.
    split; [exact Hw|]. apply generateWrites_frame in Hw. tauto.
  - intros outcome a b a'.
    pose proof (handleGenerateSpeech_resume_writes outcome a b) as Hw.
    split; [exact Hw|]. apply generateWrites_frame in Hw.
    unfold a'. tauto.
Qed.

(** ** How each failure is reported *)

(** With a payload in hand, the samples are what [decode] makes of it. *)
Lemma synthesized_payload {audio : AudioUtils} msg response b64 :
  inlineAudio response = Some b64 -> b64 <> [] ->
  synthesized msg (Fulfilled response) = decode b64.
Proof.
  intros Hsome Hne. apply truthy_true in Hne.
  unfold synthesized. rewrite Hsome. cbn [truthyOpt]. now rewrite Hne.
Qed.

(** X3.  A rejected call is reported with the prefix of its handler and
    the message of the error, the busy flag is cleared, and nothing else
    is done: a rejected generation leaves the displayed result and the
    browser as they were, a rejected analysis leaves the style
    instructions and the browser as they were. *)
Theorem rejected_call_reported {audio : AudioUtils} (err : JsError)
    (a : AppState) (b : Browser) :
  let g := snd (handleGenerateSpeech_resume (Rejected err) (a, b)) in
  let z := snd (handleAnalyzeScript_resume (Rejected err) (a, b)) in
  (error (fst g) = Some (lit "An error occurred: " ++ message err)
   /\ isLoading (fst g) = false
   /\ audioUrl (fst g) = audioUrl a
   /\ snd g = b)
  /\ (error (fst z) = Some (lit "Analysis failed: " ++ message err)
      /\ isAnalyzing (fst z) = false
      /\ styleInstructions (fst z) = styleInstructions a
      /\ snd z = b).
Proof.
  rewrite handleGenerateSpeech_resume_eq, handleAnalyzeScript_resume_eq.
  cbn [synthesized fst snd]. repeat split.
Qed.

(** X4.  A fulfilled call whose first candidate's first part carries no
    inline data, or an empty one, is reported as missing audio, by the
    generation and by the preview alike, each with its own message; the
    busy flag is cleared and no object URL is made.  Other candidates
    and other parts are not looked at. *)
Theorem missing_payload_reported {audio : AudioUtils}
    (response : GenAI.GenerateContentResponse) (a : AppState) (b : Browser) :
  truthyOpt (inlineAudio response) = false ->
  let g := snd (handleGenerateSpeech_resume (Fulfilled response) (a, b)) in
  let p := snd (handlePreviewVoice_resume (Fulfilled response) (a, b)) in
  (error (fst g)
   = Some (lit "An error occurred: "
           ++ lit "No audio data received from API.")
   /\ isLoading (fst g) = false
   /\ audioUrl (fst g) = audioUrl a
   /\ snd g = b)
  /\ (error (fst p)
      = Some (lit "Preview failed: "
              ++ lit "No audio data received for preview.")
      /\ previewLoadingVoiceId (fst p) = None
      /\ snd p = b).
Proof.
  intros Hnone.
  rewrite handleGenerateSpeech_resume_eq, handlePreviewVoice_resume_eq.
  cbn [synthesized]. rewrite Hnone. cbn [fst snd message]. repeat split.
Qed.

(** A response whose audio sits in its second candidate only. *)
Lemma missing_payload_reported_witness :
  let second :=
    {| GenAI.content :=
         Some {| GenAI.parts :=
                   Some [ {| GenAI.inlineData :=
                               Some {| GenAI.data := Some (lit "AAEC") |}
                          |} ] |} |} in
  let response :=
    {| GenAI.candidates := Some [ {| GenAI.content := None |}; second ];
       GenAI.text := None |} in
  let g := snd (@handleGenerateSpeech_resume Base64.audioUtils
                  (Fulfilled response) (initialState, emptyBrowser)) in
  let p := snd (@handlePreviewVoice_resume Base64.audioUtils
                  (Fulfilled response) (initialState, emptyBrowser)) in
  (error (fst g)
   = Some (lit "An error occurred: "
           ++ lit "No audio data received from API.")
   /\ isLoading (fst g) = false
   /\ audioUrl (fst g) = audioUrl initialState
   /\ snd g = emptyBrowser)
  /\ (error (fst p)
      = Some (lit "Preview failed: "
              ++ lit "No audio data received for preview.")
      /\ previewLoadingVoiceId (fst p) = None
      /\ snd p = emptyBrowser).
Proof.
  apply (@missing_payload_reported Base64.audioUtils).
  vm_compute; reflexivity.
Defined.

(** X5.  A payload that [decode] refuses is reported with the message of
    the error [decode] threw, behind the prefix of the handler; the busy
    flag is cleared, no object URL is made and nothing is played. *)
Theorem decode_failure_reported {audio : AudioUtils}
    (response : GenAI.GenerateContentResponse) (b64 : jsstring)
    (err : JsError) (a : AppState) (b : Browser) :
  inlineAudio response = Some b64 -> b64 <> [] -> decode b64 = inl err ->
  let g := snd (handleGenerateSpeech_resume (Fulfilled response) (a, b)) in
  let p := snd (handlePreviewVoice_resume (Fulfilled response) (a, b)) in
  (error (fst g) = Some (lit "An error occurred: " ++ message err)
   /\ isLoading (fst g) = false
   /\ audioUrl (fst g) = audioUrl a
   /\ snd g = b)
  /\ (error (fst p) = Some (lit "Preview failed: " ++ message err)
      /\ previewLoadingVoiceId (fst p) = None
      /\ snd p = b).
Proof.
  intros Hsome Hne Hdec.
  rewrite handleGenerateSpeech_resume_eq, handlePreviewVoice_resume_eq.
  rewrite !(synthesized_payload _ _ _ Hsome Hne), Hdec.
  cbn [fst snd]. repeat split.
Qed.

Lemma decode_failure_reported_witness :
  let response := audioResponse (lit "T*==") in
  let g := snd (@handleGenerateSpeech_resume Base64.audioUtils
                  (Fulfilled response) (initialState, emptyBrowser)) in
  let p := snd (@handlePreviewVoice_resume Base64.audioUtils
                  (Fulfilled response) (initialState, emptyBrowser)) in
  (error (fst g)
   = Some (lit "An error occurred: " ++ message Base64.decodeError)
   /\ isLoading (fst g) = false
   /\ audioUrl (fst g) = audioUrl initialState
   /\ snd g = emptyBrowser)
  /\ (error (fst p)
      = Some (lit "Preview failed: " ++ message Base64.decodeError)
      /\ previewLoadingVoiceId (fst p) = None
      /\ snd p = emptyBrowser).
Proof.
  apply (@decode_failure_reported Base64.audioUtils
           (audioResponse (lit "T*==")) (lit "T*==") Base64.decodeError).
  - vm_compute; reflexivity.
  - vm_compute; discriminate.
  - vm_compute; reflexivity.
Defined.

(** ** What a success does *)

(** X6.  When the payload decodes, the continuation of generation
    registers one new object URL for the container made of the decoded
    samples in the fixed format, shows that URL as the result, clears
    the busy flag, and leaves the error message, every other object URL
    and the audio elements as they were: the result is not played by
    itself. *)
Theorem generate_success_displays_wav {audio : AudioUtils}
    (response : GenAI.GenerateContentResponse) (b64 : jsstring)
    (pcmData : list byte) (a : AppState) (b : Browser) :
  inlineAudio response = Some b64 -> b64 <> [] -> decode b64 = inr pcmData ->
  let after := snd (handleGenerateSpeech_resume (Fulfilled response) (a, b)) in
  audioUrl (fst after) = Some (nextUrl b)
  /\ objectUrls (snd after) !! nextUrl b
     = Some (Wav.pcmToWavBlob pcmData pcmFormat)
  /\ (forall url, url <> nextUrl b ->
        objectUrls (snd after) !! url = objectUrls b !! url)
  /\ audios (snd after) = audios b
  /\ isLoading (fst after) = false
  /\ error (fst after) = error a.
Proof.
  intros Hsome Hne Hdec.
  rewrite handleGenerateSpeech_resume_eq.
  rewrite (synthesized_payload _ _ _ Hsome Hne), Hdec. cbn.
  split; [reflexivity|]. split; [apply lookup_insert_eq|].
  split; [|repeat split].
  intros url Hurl. now apply lookup_insert_ne.
Qed.

Lemma generate_success_displays_wav_witness :
  let after :=
    snd (@handleGenerateSpeech_resume Base64.audioUtils
           (Fulfilled (audioResponse (lit "AAEC")))
           (initialState, emptyBrowser)) in
  audioUrl (fst after) = Some (nextUrl emptyBrowser)
  /\ objectUrls (snd after) !! nextUrl emptyBrowser
     = Some (Wav.pcmToWavBlob [Byte.x00; Byte.x01; Byte.x02] pcmFormat)
  /\ (forall url, url <> nextUrl emptyBrowser ->
        objectUrls (snd after) !! url = objectUrls emptyBrowser !! url)
  /\ audios (snd after) = audios emptyBrowser
  /\ isLoading (fst after) = false
  /\ error (fst after) = error initialState.
Proof.
  apply (@generate_success_displays_wav Base64.audioUtils
           (audioResponse (lit "AAEC")) (lit "AAEC")
           [Byte.x00; Byte.x01; Byte.x02] initialState emptyBrowser).
  - vm_compute; reflexivity.
  - vm_compute; discriminate.
  - vm_compute; reflexivity.
Defined.

(** X7.  A preview that succeeds registers one new object URL for the
    container of the decoded samples and starts an audio element on it,
    without touching the displayed result; when that audio ends, the URL
    is revoked, and the component state is not touched by it. *)
Theorem preview_url_released_when_played {audio : AudioUtils}
    (response : GenAI.GenerateContentResponse) (b64 : jsstring)
    (pcmData : list byte) (sys : System) :
  previewing (pending sys) > 0 ->
  inlineAudio response = Some b64 -> b64 <> [] -> decode b64 = inr pcmData ->
  let url := nextUrl (browser sys) in
  let played := step (Settle PreviewTask (Fulfilled response)) sys in
  let ended := step (AudioEnded url) played in
  objectUrls (browser played) !! url
  = Some (Wav.pcmToWavBlob pcmData pcmFormat)
  /\ url ∈ audios (browser played)
  /\ audioUrl (app played) = audioUrl (app sys)
  /\ previewLoadingVoiceId (app played) = None
  /\ objectUrls (browser ended) !! url = None
  /\ app ended = app played.
Proof.
  intros Hwait Hsome Hne Hdec url played ended.
  assert (Hplayed :
            app played = setPreviewLoadingVoiceId None (app sys)
            /\ browser played
               = playAudio url
                   (snd (createObjectURL
                           (Wav.pcmToWavBlob pcmData pcmFormat)
                           (browser sys)))).
  { unfold played, step.
    destruct (suspended PreviewTask (pending sys)) eqn:Hs;
      [cbn in Hs; lia|].
    cbn [resume app browser].
    rewrite handlePreviewVoice_resume_eq.
    rewrite (synthesized_payload _ _ _ Hsome Hne), Hdec. now split. }
  destruct Hplayed as [Happ Hbrowser].
  assert (Hin : url ∈ audios (browser played)).
  { rewrite Hbrowser. cbn. apply elem_of_cons. now left. }
  split; [rewrite Hbrowser; cbn; apply lookup_insert_eq|].
  split; [exact Hin|].
  split; [now rewrite Happ|]. split; [now rewrite Happ|].
  unfold ended, step. rewrite bool_decide_eq_true_2 by exact Hin.
  cbn [app browser revokeObjectURL objectUrls].
  split; [apply lookup_delete_eq|reflexivity].
Qed.

Lemma preview_url_released_when_played_witness :
  let sys :=
    @run Base64.audioUtils [ToggleVoiceList; ClickPreview 3] initialSystem in
  let url := nextUrl (browser sys) in
  let played :=
    @step Base64.audioUtils
      (Settle PreviewTask (Fulfilled (audioResponse (lit "AAEC")))) sys in
  let ended := @step Base64.audioUtils (AudioEnded url) played in
  objectUrls (browser played) !! url
  = Some (Wav.pcmToWavBlob [Byte.x00; Byte.x01; Byte.x02] pcmFormat)
  /\ url ∈ audios (browser played)
  /\ audioUrl (app played) = audioUrl (app sys)
  /\ previewLoadingVoiceId (app played) = None
  /\ objectUrls (browser ended) !! url = None
  /\ app ended = app played.
Proof.
  apply (@preview_url_released_when_played Base64.audioUtils
           (audioResponse (lit "AAEC")) (lit "AAEC")
           [Byte.x00; Byte.x01; Byte.x02]
           (@run Base64.audioUtils [ToggleVoiceList; ClickPreview 3]
              initialSystem)).
  - vm_compute; lia.
  - vm_compute; reflexivity.
  - vm_compute; discriminate.
  - vm_compute; reflexivity.
Defined.

(** X8.  A fulfilled analysis that carries a text overwrites the style
    instructions with that text trimmed, whatever they were, clears the
    analyze busy flag, and leaves the error message and the browser as
    they were. *)
Theorem analyze_success_overwrites_style
    (candidates : option (list GenAI.Candidate)) (style : jsstring)
    (a : AppState) (b : Browser) :
  let response :=
    {| GenAI.candidates := candidates; GenAI.text := Some style |} in
  let after := snd (handleAnalyzeScript_resume (Fulfilled response) (a, b)) in
  styleInstructions (fst after) = trim style
  /\ isAnalyzing (fst after) = false
  /\ error (fst after) = error a
  /\ snd after = b.
Proof.
  cbv zeta. rewrite handleAnalyzeScript_resume_eq. cbn. repeat split.
Qed.

(** X9.  The style that an analysis stored is used as it is by the next
    generation: the prompt is that style (the text of the response,
    trimmed), two newlines and the trimmed text; when the response was
    white space only, the prompt is the trimmed text alone. *)
Theorem analysed_style_heads_next_prompt
    (style : jsstring) (a : AppState) (b : Browser) :
  trim (text a) <> [] ->
  let a' :=
    fst (snd (handleAnalyzeScript_resume (Fulfilled (textResponse style))
                (a, b))) in
  exists request,
    snd (handleGenerateSpeech a') = Some request
    /\ (trim style <> [] ->
        GenAI.contents request = trim style ++ [LF; LF] ++ trim (text a))
    /\ (trim style = [] -> GenAI.contents request = trim (text a)).
Proof.
  intros Htext a'.
  assert (Ha' : a' = setIsAnalyzing false
                      (setStyleInstructions (trim style) a)).
  { unfold a'. now rewrite handleAnalyzeScript_resume_eq. }
  assert (Htext' : trim (text a') <> []) by now rewrite Ha'.
  destruct (handleGenerateSpeech_sends a' Htext') as (request & Hrun & Hc & _).
  exists request. rewrite Hrun. split; [reflexivity|].
  rewrite Hc, Ha'. cbn [styleInstructions text setIsAnalyzing
                          setStyleInstructions].
  rewrite trim_idempotent. split; intros Hstyle.
  - apply truthy_true in Hstyle. now rewrite Hstyle.
  - now rewrite Hstyle.
Qed.

Lemma analysed_style_heads_next_prompt_witness :
  let a' :=
    fst (snd (handleAnalyzeScript_resume
                (Fulfilled (textResponse (lit " Speak softly: ")))
                (initialState, emptyBrowser))) in
  exists request,
    snd (handleGenerateSpeech a') = Some request
    /\ (trim (lit " Speak softly: ") <> [] ->
        GenAI.contents request
        = trim (lit " Speak softly: ") ++ [LF; LF]
          ++ trim (text initialState))
    /\ (trim (lit " Speak softly: ") = [] ->
        GenAI.contents request = trim (text initialState)).
Proof.
  apply (analysed_style_heads_next_prompt
           (lit " Speak softly: ") initialState emptyBrowser).
  vm_compute. discriminate.
Defined.

(** ** One operation at a time, in each of the three domains *)

(** Every voice of the catalogue has an identifier that is not empty. *)
Lemma voices_truthy i v : VOICES !! i = Some v -> truthy (id v) = true.
Proof.
  assert (H : Forall (fun v => truthy (id v) = true) VOICES)
    by (repeat constructor).
  intros Hv. exact (proj1 (Forall_lookup _ _) H i v Hv).
Qed.

Section Domains.

Context {audio : AudioUtils}.

Lemma task_cases (t t0 : Task) : t = t0 \/ t <> t0.
Proof. destruct t, t0; (now left) || (right; discriminate). Qed.

Lemma render_domainInvariant a sys :
  (forall t, busy t a = busy t (app sys)) ->
  domainInvariant sys -> domainInvariant (render a sys).
Proof.
  intros Hsame Hinv t. unfold render. cbn [app pending].
  rewrite Hsame. apply Hinv.
Qed.

Lemma dispatch_domainInvariant t0 a request sys :
  busy t0 (app sys) = false -> busy t0 a = true ->
  (forall t, t <> t0 -> busy t a = busy t (app sys)) ->
  domainInvariant sys ->
  domainInvariant (dispatch t0 (a, Some request) sys).
Proof.
  intros Hidle Hbusy Hsame Hinv t. unfold dispatch. cbn [app pending].
  pose proof (Hinv t0) as H0. rewrite Hidle in H0.
  destruct (task_cases t t0) as [->|Hne].
  - rewrite Hbusy. destruct t0; cbn in *; now rewrite H0.
  - rewrite (Hsame t Hne), <- (Hinv t).
    destruct t, t0; try congruence; reflexivity.
Qed.

Lemma settle_domainInvariant t0 a b n sys :
  suspended t0 (pending sys) = S n -> busy t0 a = false ->
  (forall t, t <> t0 -> busy t a = busy t (app sys)) ->
  domainInvariant sys ->
  domainInvariant {| app := a; browser := b; calls := calls sys;
                     pending := wake t0 (pending sys) |}.
Proof.
  intros Hs Hfree Hsame Hinv t. cbn [app pending].
  pose proof (Hinv t0) as H0.
  destruct (task_cases t t0) as [->|Hne].
  - rewrite Hfree. destruct (busy t0 (app sys)); [|congruence].
    destruct t0; cbn in *; now rewrite H0.
  - rewrite (Hsame t Hne), <- (Hinv t).
    destruct t, t0; try congruence; reflexivity.
Qed.

Lemma step_domainInvariant e sys :
  domainInvariant sys -> domainInvariant (step e sys).
Proof.
  intros Hinv. destruct e; cbn [step]; cbv zeta;
    try (apply render_domainInvariant; [intros []; reflexivity|exact Hinv]).
  - (* ClickAnalyze *)
    destruct (isAnalyzing (app sys)) eqn:Hbusy; [exact Hinv|].
    unfold handleAnalyzeScript.
    destruct (negb (truthy (trim (narratorScript (app sys))))).
    + apply render_domainInvariant; [intros []; reflexivity|exact Hinv].
    + apply dispatch_domainInvariant; trivial.
      intros [] Ht; try congruence; reflexivity.
  - (* SelectVoice *)
    destruct (VOICES !! index); [|exact Hinv].
    destruct (isVoiceListOpen (app sys)); [|exact Hinv].
    apply render_domainInvariant; [intros []; reflexivity|exact Hinv].
  - (* ClickPreview *)
    destruct (VOICES !! index) as [v|] eqn:Hv; [|exact Hinv].
    destruct (_ && _); [|exact Hinv].
    unfold handlePreviewVoice.
    destruct (truthyOpt (previewLoadingVoiceId (app sys))) eqn:Hbusy.
    + apply render_domainInvariant; [reflexivity|exact Hinv].
    + apply dispatch_domainInvariant; trivial.
      * cbn. exact (voices_truthy _ _ Hv).
      * intros [] Ht; try congruence; reflexivity.
  - (* ClickGenerate *)
    destruct (isLoading (app sys)) eqn:Hbusy; [exact Hinv|].
    unfold handleGenerateSpeech.
    destruct (negb (truthy (trim (text (app sys))))).
    + apply render_domainInvariant; [intros []; reflexivity|exact Hinv].
    + apply dispatch_domainInvariant; trivial.
      intros [] Ht; try congruence; reflexivity.
  - (* Settle *)
    destruct (suspended t (pending sys)) eqn:Hs; [exact Hinv|].
    apply (settle_domainInvariant t _ _ n); trivial; destruct t;
      cbn [resume].
    + rewrite handleGenerateSpeech_resume_eq.
      now destruct (synthesized _ outcome).
    + rewrite handlePreviewVoice_resume_eq.
      now destruct (synthesized _ outcome).
    + rewrite handleAnalyzeScript_resume_eq.
      destruct outcome as [response|err]; [|reflexivity].
      now destruct (GenAI.text response).
    + rewrite handleGenerateSpeech_resume_eq.
      intros [] Ht; try congruence; now destruct (synthesized _ outcome).
    + rewrite handlePreviewVoice_resume_eq.
      intros [] Ht; try congruence; now destruct (synthesized _ outcome).
    + rewrite handleAnalyzeScript_resume_eq.
      intros [] Ht; try congruence;
        (destruct outcome as [response|err]; [|reflexivity]);
        now destruct (GenAI.text response).
  - (* AudioEnded *)
    destruct (bool_decide _); exact Hinv.
Qed.

Lemma run_domainInvariant events sys :
  domainInvariant sys -> domainInvariant (run events sys).
Proof.
  revert sys. induction events as [|e events IH]; intros sys Hinv.
  - exact Hinv.
  - apply (IH (step e sys)). now apply step_domainInvariant.
Qed.

Lemma initial_domainInvariant : domainInvariant initialSystem.
Proof. intros []; reflexivity. Qed.

End Domains.

(** X10.  On every page reached from the mounted one and in each of the
    three domains (generation, preview, analysis), the busy flag is set
    exactly when a call of that domain is awaited, and at most one is. *)
Theorem one_operation_per_domain {audio : AudioUtils}
    (events : list Event) (t : Task) :
  let sys := run events initialSystem in
  suspended t (pending sys) = (if busy t (app sys) then 1 else 0)
  /\ suspended t (pending sys) <= 1.
Proof.
  intros sys.
  pose proof (run_domainInvariant events initialSystem
                initial_domainInvariant t) as H.
  fold sys in H. rewrite H. split; [reflexivity|].
  destruct (busy t (app sys)); lia.
Qed.

(** X11.  On every page reached from the mounted one, when an awaited
    call settles, fulfilled or rejected, with or without a payload, its
    domain is unlocked: the busy flag is clear and no call of that domain
    is awaited any more; the busy flags and awaited calls of the other
    two domains are as before. *)
Theorem settle_unlocks_domain {audio : AudioUtils}
    (events : list Event) (t : Task) (outcome : Settled) :
  let sys := run events initialSystem in
  let sys' := step (Settle t outcome) sys in
  suspended t (pending sys) > 0 ->
  busy t (app sys') = false
  /\ suspended t (pending sys') = 0
  /\ forall t', t' <> t ->
       busy t' (app sys') = busy t' (app sys)
       /\ suspended t' (pending sys') = suspended t' (pending sys).
Proof.
  intros sys sys' Hwait.
  pose proof (run_domainInvariant events initialSystem
                initial_domainInvariant) as Hinv.
  fold sys in Hinv.
  pose proof (step_domainInvariant (Settle t outcome) sys Hinv) as Hinv'.
  fold sys' in Hinv'.
  assert (Hp : pending sys' = wake t (pending sys)).
  { unfold sys', step.
    destruct (suspended t (pending sys)); [lia|reflexivity]. }
  assert (Hone : suspended t (pending sys) = 1).
  { rewrite (Hinv t) in *. destruct (busy t (app sys)); [reflexivity|lia]. }
  assert (Hzero : suspended t (pending sys') = 0).
  { rewrite Hp. destruct t; cbn in *; now rewrite Hone. }
  split; [|split; [exact Hzero|]].
  - rewrite (Hinv' t) in Hzero. now destruct (busy t (app sys')).
  - intros t' Hne.
    assert (Hsame : suspended t' (pending sys') = suspended t' (pending sys)).
    { rewrite Hp. destruct t, t'; try congruence; reflexivity. }
    split; [|exact Hsame].
    rewrite (Hinv' t'), (Hinv t') in Hsame.
    destruct (busy t' (app sys')), (busy t' (app sys)); congruence.
Qed.

(** A generation and a preview are awaited; the generation is rejected. *)
Lemma settle_unlocks_domain_witness :
  let sys :=
    @run Base64.audioUtils [ClickGenerate; ToggleVoiceList; ClickPreview 2]
      initialSystem in
  let sys' :=
    @step Base64.audioUtils
      (Settle GenerateTask (Rejected {| message := lit "quota" |})) sys in
  busy GenerateTask (app sys') = false
  /\ suspended GenerateTask (pending sys') = 0
  /\ forall t', t' <> GenerateTask ->
       busy t' (app sys') = busy t' (app sys)
       /\ suspended t' (pending sys') = suspended t' (pending sys).
Proof.
  apply (@settle_unlocks_domain Base64.audioUtils
           [ClickGenerate; ToggleVoiceList; ClickPreview 2] GenerateTask
           (Rejected {| message := lit "quota" |})).
  vm_compute; lia.
Defined.

(** X12.  While a preview is loading, [handlePreviewVoice] returns at
    once: a click on the preview button of any voice, the one loading or
    another, sends no request and changes nothing on the page. *)
Theorem preview_click_ignored_while_loading {audio : AudioUtils}
    (sys : System) (index : nat) :
  truthyOpt (previewLoadingVoiceId (app sys)) = true ->
  step (ClickPreview index) sys = sys
  /\ forall voiceId, handlePreviewVoice voiceId (app sys) = (app sys, None).
Proof.
  intros Hbusy.
  assert (Hrun : forall voiceId,
             handlePreviewVoice voiceId (app sys) = (app sys, None)).
  { intros voiceId. unfold handlePreviewVoice. now rewrite Hbusy. }
  split; [|exact Hrun]. unfold step.
  destruct (VOICES !! index) as [v|]; [|reflexivity].
  destruct (_ && _); [|reflexivity].
  rewrite Hrun. now destruct sys.
Qed.

(** The preview of the first voice is loading; the button of the fifth
    is clicked. *)
Lemma preview_click_ignored_while_loading_witness :
  let sys :=
    @run Base64.audioUtils [ToggleVoiceList; ClickPreview 0] initialSystem in
  @step Base64.audioUtils (ClickPreview 4) sys = sys
  /\ forall voiceId, handlePreviewVoice voiceId (app sys) = (app sys, None).
Proof.
  apply (@preview_click_ignored_while_loading Base64.audioUtils
           (@run Base64.audioUtils [ToggleVoiceList; ClickPreview 0]
              initialSystem) 4).
  vm_compute; reflexivity.
Defined.

(** X13.  When each handler sends a request: the generation exactly when
    the trimmed text is not empty, the analysis exactly when the trimmed
    script is not empty, the preview exactly when no preview is loading.
    A handler that sends a request has cleared the error message in the
    same turn, and has written its flag: the generation and the analysis
    are then busy; the preview has stored the voice identifier, so it is
    busy exactly when that identifier is not empty, which holds for
    every voice of the catalogue. *)
Theorem dispatch_conditions :
  (forall s,
     (is_Some (snd (handleGenerateSpeech s)) <-> trim (text s) <> [])
     /\ (forall request, snd (handleGenerateSpeech s) = Some request ->
           error (fst (handleGenerateSpeech s)) = None
           /\ busy GenerateTask (fst (handleGenerateSpeech s)) = true))
  /\ (forall s,
        (is_Some (snd (handleAnalyzeScript s))
         <-> trim (narratorScript s) <> [])
        /\ (forall request, snd (handleAnalyzeScript s) = Some request ->
              error (fst (handleAnalyzeScript s)) = None
              /\ busy AnalyzeTask (fst (handleAnalyzeScript s)) = true))
  /\ (forall voiceId s,
        (is_Some (snd (handlePreviewVoice voiceId s))
         <-> truthyOpt (previewLoadingVoiceId s) = false)
        /\ (forall request,
              snd (handlePreviewVoice voiceId s) = Some request ->
              error (fst (handlePreviewVoice voiceId s)) = None
              /\ previewLoadingVoiceId (fst (handlePreviewVoice voiceId s))
                 = Some voiceId
              /\ busy PreviewTask (fst (handlePreviewVoice voiceId s))
                 = truthy voiceId))
  /\ (forall index v s request,
        VOICES !! index = Some v ->
        snd (handlePreviewVoice (id v) s) = Some request ->
        busy PreviewTask (fst (handlePreviewVoice (id v) s)) = true).
Proof.
  split; [|split; [|split]].
  - intros s. unfold handleGenerateSpeech.
    destruct (truthy (trim (text s))) eqn:Ht; cbn [negb fst snd].
    + apply truthy_true in Ht. split; [split; eauto|]. now intros.
    + destruct (trim (text s)); [|discriminate].
      split; [|discriminate]. split; [intros [r Hr]; discriminate|congruence].
  - intros s. unfold handleAnalyzeScript.
    destruct (truthy (trim (narratorScript s))) eqn:Ht; cbn [negb fst snd].
    + apply truthy_true in Ht. split; [split; eauto|]. now intros.
    + destruct (trim (narratorScript s)); [|discriminate].
      split; [|discriminate]. split; [intros [r Hr]; discriminate|congruence].
  - intros voiceId s. unfold handlePreviewVoice.
    destruct (truthyOpt (previewLoadingVoiceId s)); cbn [fst snd].
    + split; [|discriminate]. split; [intros [r Hr]|]; discriminate.
    + split; [split; eauto|]. now intros.
  - intros index v s request Hv. unfold handlePreviewVoice.
    destruct (truthyOpt (previewLoadingVoiceId s)); cbn [fst snd];
      [discriminate|].
    intros _. cbn. exact (voices_truthy _ _ Hv).
Qed.

(** ** The selected voice *)

(** For a voice of the catalogue, the label is the name of that voice. *)
Lemma voice_label i v :
  VOICES !! i = Some v ->
  selectedVoiceName (id v) = name v /\ name v <> lit "Select Voice".
Proof.
  assert (H : Forall (fun v => selectedVoiceName (id v) = name v
                               /\ name v <> lit "Select Voice") VOICES).
  { repeat constructor; vm_compute; congruence. }
  intros Hv. exact (proj1 (Forall_lookup _ _) H i v Hv).
Qed.

Section Selection.

Context {audio : AudioUtils}.

(** An event leaves the selected voice as it is or sets it to the
    identifier of a voice of the catalogue. *)
Lemma step_selectedVoice e sys :
  selectedVoice (app (step e sys)) = selectedVoice (app sys)
  \/ exists i v, VOICES !! i = Some v
                 /\ selectedVoice (app (step e sys)) = id v.
Proof.
  destruct e; cbn [step]; cbv zeta; try (now left).
  - destruct (isAnalyzing (app sys)); [now left|].
    destruct (handleAnalyzeScript_writes (app sys)) as [Hw _].
    apply analyzeWrites_frame in Hw. destruct Hw as (_ & _ & Hw & _).
    destruct (handleAnalyzeScript (app sys)) as [a [r|]]; now left.
  - destruct (VOICES !! index) as [v|] eqn:Hv; [|now left].
    destruct (isVoiceListOpen (app sys)); [|now left].
    right. exists index, v. now split.
  - destruct (VOICES !! index) as [v|]; [|now left].
    destruct (_ && _); [|now left].
    pose proof (handlePreviewVoice_writes (id v) (app sys)) as Hw.
    apply previewWrites_frame in Hw. destruct Hw as (_ & _ & Hw & _).
    destruct (handlePreviewVoice (id v) (app sys)) as [a [r|]]; now left.
  - destruct (isLoading (app sys)); [now left|].
    pose proof (handleGenerateSpeech_writes (app sys)) as Hw.
    apply generateWrites_frame in Hw. destruct Hw as (_ & _ & Hw & _).
    destruct (handleGenerateSpeech (app sys)) as [a [r|]]; now left.
  - destruct (suspended t (pending sys)); [now left|].
    cbn [app]. left. destruct t; cbn [resume].
    + pose proof (handleGenerateSpeech_resume_writes outcome (app sys)
                    (browser sys)) as Hw.
      apply generateWrites_frame in Hw. tauto.
    + pose proof (handlePreviewVoice_resume_writes outcome (app sys)
                    (browser sys)) as Hw.
      apply previewWrites_frame in Hw. unfold sameInputsAndResult in Hw.
      tauto.
    + destruct (handleAnalyzeScript_resume_writes outcome (app sys)
                  (browser sys)) as [Hw _].
      apply analyzeWrites_frame in Hw. unfold sameInputsAndResult in Hw.
      tauto.
  - destruct (bool_decide _); now left.
Qed.

Lemma run_selectedVoice events sys :
  (exists i v, VOICES !! i = Some v /\ selectedVoice (app sys) = id v) ->
  exists i v, VOICES !! i = Some v
              /\ selectedVoice (app (run events sys)) = id v.
Proof.
  revert sys. induction events as [|e events IH]; intros sys Hsel.
  - exact Hsel.
  - apply (IH (step e sys)).
    destruct (step_selectedVoice e sys) as [Hsame|Hnew]; [|exact Hnew].
    now rewrite Hsame.
Qed.

End Selection.

(** X14.  On every page reached from the mounted one, the selected voice
    is the identifier of a voice of the catalogue, so the voice button
    shows the name of that voice and never the fallback [Select Voice]. *)
Theorem selected_voice_in_catalogue {audio : AudioUtils}
    (events : list Event) :
  let s := app (run events initialSystem) in
  exists i v,
    VOICES !! i = Some v
    /\ selectedVoice s = id v
    /\ selectedVoiceName (selectedVoice s) = name v
    /\ selectedVoiceName (selectedVoice s) <> lit "Select Voice".
Proof.
  intros s.
  destruct (run_selectedVoice events initialSystem) as (i & v & Hv & Hs).
  { exists 0. eexists. split; reflexivity. }
  exists i, v. fold s in Hs. rewrite Hs.
  destruct (voice_label i v Hv) as [Hname Hne].
  rewrite Hname. auto.
Qed.

(** X15.  The name under which the result is downloaded follows the
    voice selected now, not the voice the result was generated with:
    selecting a voice in the open list keeps the result on display, sends
    nothing, and renames its download after the voice just selected. *)
Theorem download_name_follows_selection {audio : AudioUtils}
    (sys : System) (index : nat) (v : Voice) (url : objectUrl) :
  isVoiceListOpen (app sys) = true ->
  VOICES !! index = Some v ->
  audioUrl (app sys) = Some url ->
  let sys' := step (SelectVoice index) sys in
  downloadLink (app sys')
  = Some (url, lit "gemini-tts-" ++ id v ++ lit ".wav")
  /\ calls sys' = calls sys
  /\ browser sys' = browser sys.
Proof.
  intros Hopen Hv Hurl sys'. unfold sys', step. rewrite Hv, Hopen.
  unfold downloadLink. cbn. now rewrite Hurl.
Qed.

(** A result generated with the first voice; the fourth is then
    selected. *)
Lemma download_name_follows_selection_witness :
  let sys :=
    @run Base64.audioUtils
      [ClickGenerate;
       Settle GenerateTask (Fulfilled (audioResponse (lit "AAEC")));
       ToggleVoiceList]
      initialSystem in
  let sys' := @step Base64.audioUtils (SelectVoice 3) sys in
  downloadLink (app sys')
  = Some (0, lit "gemini-tts-" ++ id (voice "algieba" "Algieba")
             ++ lit ".wav")
  /\ calls sys' = calls sys
  /\ browser sys' = browser sys.
Proof.
  apply (@download_name_follows_selection Base64.audioUtils
           (@run Base64.audioUtils
              [ClickGenerate;
               Settle GenerateTask (Fulfilled (audioResponse (lit "AAEC")));
               ToggleVoiceList]
              initialSystem)
           3 (voice "algieba" "Algieba") 0).
  - vm_compute; reflexivity.
  - vm_compute; reflexivity.
  - vm_compute; reflexivity.
Defined.

(** On that page the request had been sent for the first voice. *)
Example download_name_differs_from_generated_voice :
  (fun r => GenAI.voiceName <$> (GenAI.speechConfig <$> GenAI.config r)) <$>
    calls (@run Base64.audioUtils
             [ClickGenerate;
              Settle GenerateTask (Fulfilled (audioResponse (lit "AAEC")));
              ToggleVoiceList; SelectVoice 3]
             initialSystem)
  = [Some (lit "achernar")].
Proof. vm_compute; reflexivity. Qed.

(** Two results in a row, then a preview played to its end: the first
    result is still registered. *)
Lemma displayed_result_never_revoked_witness :
  is_Some
    (objectUrls
       (browser
          (@run Base64.audioUtils
             [ClickGenerate;
              Settle GenerateTask (Fulfilled (audioResponse (lit "AwQF")));
              ToggleVoiceList; ClickPreview 1;
              Settle PreviewTask (Fulfilled (audioResponse (lit "AAEC")));
              AudioEnded 2]
             (@run Base64.audioUtils
                [ClickGenerate;
                 Settle GenerateTask
                   (Fulfilled (audioResponse (lit "AAEC")))]
                initialSystem)))
     !! 0).
Proof.
  apply (@displayed_result_never_revoked Base64.audioUtils
           [ClickGenerate;
            Settle GenerateTask (Fulfilled (audioResponse (lit "AAEC")))]
           [ClickGenerate;
            Settle GenerateTask (Fulfilled (audioResponse (lit "AwQF")));
            ToggleVoiceList; ClickPreview 1;
            Settle PreviewTask (Fulfilled (audioResponse (lit "AAEC")));
            AudioEnded 2]
           0).
  vm_compute; reflexivity.
Defined.

(** ** An analysis that brings no text *)

(** X17.  A fulfilled analysis whose response has no text is reported as
    a failed analysis: the style instructions stay as they were, the
    analyze busy flag is cleared, and the error message starts with
    [Analysis failed: ]. *)
Theorem analysis_without_text_reported
    (candidates : option (list GenAI.Candidate))
    (a : AppState) (b : Browser) :
  let response := {| GenAI.candidates := candidates; GenAI.text := None |} in
  let after := snd (handleAnalyzeScript_resume (Fulfilled response) (a, b)) in
  styleInstructions (fst after) = styleInstructions a
  /\ isAnalyzing (fst after) = false
  /\ (exists reason,
        error (fst after) = Some (lit "Analysis failed: " ++ reason))
  /\ snd after = b.
Proof.
  cbv zeta. rewrite handleAnalyzeScript_resume_eq. cbn [GenAI.text fst snd].
  split; [reflexivity|]. split; [reflexivity|]. split; [|reflexivity].
  eexists. reflexivity.
Qed.
